(** * Data-Extractor: the Google Docs parser service

    A shallow embedding of [googleDocParser.js] (extractDocId, downloadDoc,
    convertToHtml, extractStructuredData, processGoogleDoc) and of the
    [POST /parse-doc] handler of [server.js], with the properties of the
    service's specification stated over it.

    Conventions of the embedding.
    - A JS string is a [string] of code units below 256 (Latin-1).  On that
      range [toLowerCase] maps one unit to one unit and looks at no
      context; outside it (U+0130, the Greek sigma) it does not, and the
      properties that speak of lowercased text are stated for texts and
      keywords of this range.
    - The object [structuredData] is a [gmap string string].  A property
      assignment is an insert, but for the name [__proto__]: there the
      assignment reaches the setter of [Object.prototype], which ignores a
      string, and the object gets no property ([setProperty]).
    - [cheerio.load(html)] is the HTML parser of a library; the extractor is
      stated over the parsed document, a forest of [node]s.
    - The network, the file system and the DOCX converter are inputs,
      collected in a [world] record. *)

From Stdlib Require Import String Ascii List ZArith Bool Lia DecimalString.
From stdpp Require Import base option gmap strings list.
Import ListNotations.

#[local] Arguments String.append !_ _ / : simpl nomatch.

(** ** JavaScript values and results *)

#[warnings="-register-all"]
Inductive jsval : Type :=
  | JUndefined
  | JNull
  | JBool (b : bool)
  | JNum (n : Z)
  | JStr (s : string)
  | JArr (items : list jsval)
  | JObj.

(** [!!v]: the truthiness of a value. *)
Definition truthy (v : jsval) : bool :=
  match v with
  | JUndefined | JNull => false
  | JBool b => b
  | JNum n => negb (n =? 0)%Z
  | JStr s => negb (String.eqb s "")
  | JArr _ | JObj => true
  end.

Definition isArray (v : jsval) : bool :=
  match v with JArr _ => true | _ => false end.

Definition isString (v : jsval) : bool :=
  match v with JStr _ => true | _ => false end.

(** A call either returns or throws. *)
Inductive result (E A : Type) : Type :=
  | Ok (a : A)
  | Err (e : E).
Arguments Ok {E A} a.
Arguments Err {E A} e.

(** ** Strings as the code uses them *)

Module JsString.

Definition charCode (c : ascii) : nat := nat_of_ascii c.

(** White space and line terminators of ECMAScript below U+0100: what
    [trim] strips and what [\s] matches. *)
Definition isWhite (c : ascii) : bool :=
  let n := charCode c in
  (((9 <=? n) && (n <=? 13)) || (n =? 32) || (n =? 160))%nat.

Definition lowerChar (c : ascii) : ascii :=
  let n := charCode c in
  if (((65 <=? n) && (n <=? 90))
      || ((192 <=? n) && (n <=? 222) && negb (n =? 215)))%nat
  then ascii_of_nat (n + 32) else c.

Fixpoint toLowerCase (s : string) : string :=
  match s with
  | "" => ""
  | String c r => String (lowerChar c) (toLowerCase r)
  end.

Fixpoint trimStart (s : string) : string :=
  match s with
  | "" => ""
  | String c r => if isWhite c then trimStart r else s
  end.

Fixpoint trimEnd (s : string) : string :=
  match s with
  | "" => ""
  | String c r =>
      match trimEnd r with
      | "" => if isWhite c then "" else String c ""
      | r' => String c r'
      end
  end.

Definition trim (s : string) : string := trimEnd (trimStart s).

(** [!s] for a string. *)
Definition isEmpty (s : string) : bool :=
  match s with "" => true | _ => false end.

Fixpoint startsWith (p s : string) : bool :=
  match p, s with
  | "", _ => true
  | String a p', String b s' => if Ascii.eqb a b then startsWith p' s' else false
  | String _ _, "" => false
  end.

(** [s.indexOf(p)], with [None] for [-1]. *)
Fixpoint indexOf (p s : string) : option nat :=
  if startsWith p s then Some 0
  else match s with
       | "" => None
       | String _ r => option_map S (indexOf p r)
       end.

Definition includes (p s : string) : bool :=
  match indexOf p s with Some _ => true | None => false end.

(** [s.slice(n)] for [0 <= n]. *)
Fixpoint slice (n : nat) (s : string) : string :=
  match n, s with
  | O, _ => s
  | S n', String _ r => slice n' r
  | S _, "" => ""
  end.

(** [s.replace(/\s+/g, ' ')]: every maximal run of white space becomes
    one space.  [inRun] tells that the previous character was white. *)
Fixpoint collapseFrom (inRun : bool) (s : string) : string :=
  match s with
  | "" => ""
  | String c r =>
      if isWhite c
      then if inRun then collapseFrom true r
           else String " " (collapseFrom true r)
      else String c (collapseFrom false r)
  end.

Definition collapseWhite (s : string) : string := collapseFrom false s.

(** [items.join(sep)]. *)
Fixpoint join (sep : string) (items : list string) : string :=
  match items with
  | [] => ""
  | [x] => x
  | x :: rest => x +:+ sep +:+ join sep rest
  end.

(** The longest prefix without the character [c]. *)
Fixpoint takeUntil (c : ascii) (s : string) : string :=
  match s with
  | "" => ""
  | String a r => if Ascii.eqb a c then "" else String a (takeUntil c r)
  end.

Fixpoint stripPrefix (p s : string) : option string :=
  match p, s with
  | "", _ => Some s
  | String a p', String b s' => if Ascii.eqb a b then stripPrefix p' s' else None
  | String _ _, "" => None
  end.

(** A string that [c] does not occur in. *)
Fixpoint lacks (c : ascii) (s : string) : Prop :=
  match s with
  | "" => True
  | String a r => a <> c /\ lacks c r
  end.

(** A string with something in it and no white space at either end. *)
Definition Trimmed (s : string) : Prop := s <> "" /\ trim s = s.

(** A string whose white space is single spaces only; [afterWhite] tells
    that the character before [s] was white. *)
Fixpoint collapsed (afterWhite : bool) (s : string) : bool :=
  match s with
  | "" => true
  | String c r =>
      if isWhite c
      then Ascii.eqb c " " && negb afterWhite && collapsed true r
      else collapsed false r
  end.

(** [p] agrees with [a] as far as [a] goes: an occurrence of [p] could
    start where [a] starts, whatever follows [a]. *)
Fixpoint mayStart (p a : string) : bool :=
  match p, a with
  | "", _ => true
  | _, "" => true
  | String x p', String y a' => Ascii.eqb x y && mayStart p' a'
  end.

(** No occurrence of [p] can start inside [a], whatever follows [a]. *)
Fixpoint noStartIn (p a : string) : bool :=
  match a with
  | "" => true
  | String _ a' => negb (mayStart p a) && noStartIn p a'
  end.

End JsString.
Import JsString.

(** ** The parsed document *)

Module Dom.

(** What cheerio exposes of a parsed document: text nodes and elements
    with a tag name and children. *)
#[warnings="-register-all"]
Inductive node : Type :=
  | Text (s : string)
  | Elem (tag : string) (children : list node).

Definition tagName (n : node) : string :=
  match n with Elem t _ => t | Text _ => "" end.

(** [$(n).text()]: the text nodes below [n], concatenated. *)
Fixpoint text (n : node) : string :=
  match n with
  | Text s => s
  | Elem _ cs =>
      (fix texts (l : list node) : string :=
         match l with
         | [] => ""
         | c :: l' => text c +:+ texts l'
         end) cs
  end.

(** The nodes strictly below [n], in document order. *)
Fixpoint descendants (n : node) : list node :=
  match n with
  | Text _ => []
  | Elem _ cs =>
      (fix below (l : list node) : list node :=
         match l with
         | [] => []
         | c :: l' => c :: descendants c ++ below l'
         end) cs
  end.

Definition hasTag (tags : list string) (n : node) : bool :=
  match n with
  | Elem t _ => existsb (String.eqb t) tags
  | Text _ => false
  end.

(** [$(n).find('t1, t2')]. *)
Definition find (tags : list string) (n : node) : list node :=
  List.filter (hasTag tags) (descendants n).

(** [$('t1, t2')] on a whole document. *)
Definition select (tags : list string) (doc : list node) : list node :=
  List.filter (hasTag tags) (flat_map (fun n => n :: descendants n) doc).

End Dom.
Import Dom.

(** ** extractStructuredData *)

Module Extractor.

Record keyword : Type := { original : string; normalized : string }.

(** The [filter] and [map] that build [normalizedKeywords]. *)
Definition normalizeKeyword (k : jsval) : option keyword :=
  match k with
  | JStr k =>
      if isEmpty (trim k) then None
      else Some {| original := k; normalized := trim (toLowerCase k) |}
  | _ => None
  end.

Definition normalizedKeywords (keywords : list jsval) : list keyword :=
  omap normalizeKeyword keywords.

Definition selector : list string := ["p"; "h1"; "h2"; "h3"; "ul"; "table"].

Definition normalizeText (text : string) : string :=
  toLowerCase (trim (collapseWhite text)).

(** [structuredData[key] = value], for a string [value], on the object
    literal that [structuredData] starts as. *)
Definition setProperty (key value : string) (obj : gmap string string)
    : gmap string string :=
  if String.eqb key "__proto__" then obj else <[key := value]> obj.

(** *** First pass: the inline "Keyword: value" pattern *)

(** The body of [normalizedKeywords.forEach] in the first pass. *)
Definition inlineKeyword (rawText lowerText : string)
    (structuredData : gmap string string) (kw : keyword)
    : gmap string string :=
  if negb (includes (normalized kw) lowerText) then structuredData
  else
    match indexOf (normalized kw) lowerText with
    | None => structuredData
    | Some idx =>
        let afterKeyword := slice (idx + String.length (normalized kw)) rawText in
        match indexOf ":" afterKeyword with
        | None => structuredData
        | Some colonIndex =>
            let value := trim (slice (colonIndex + 1) afterKeyword) in
            if isEmpty value then structuredData
            else setProperty (original kw) value structuredData
        end
    end.

(** The body of the first [$(selector).each]. *)
Definition inlineElem (kws : list keyword)
    (structuredData : gmap string string) (elem : node)
    : gmap string string :=
  let rawText := trim (text elem) in
  if isEmpty rawText then structuredData
  else foldl (inlineKeyword rawText (toLowerCase rawText)) structuredData kws.

Definition firstPass (kws : list keyword) (elems : list node)
    (structuredData : gmap string string) : gmap string string :=
  foldl (inlineElem kws) structuredData elems.

(** *** Second pass: a label element, then its value element *)

(** The two variables the second pass mutates. *)
Record scan : Type :=
  { structuredData : gmap string string; pendingLabel : option keyword }.

Definition cellTexts (tags : list string) (elem : node) : list string :=
  List.filter (fun t => negb (isEmpty t))
              (map (fun c => trim (text c)) (find tags elem)).

(** [valueText] of an element, by its tag. *)
Definition valueText (elem : node) (rawText : string) : string :=
  let tag := toLowerCase (tagName elem) in
  if String.eqb tag "ul" then join " | " (cellTexts ["li"] elem)
  else if String.eqb tag "table" then join " | " (cellTexts ["th"; "td"] elem)
  else rawText.

(** The body of [normalizedKeywords.forEach] in the second pass. *)
Definition labelKeyword (rawText normalizedElemText : string)
    (pending : option keyword) (kw : keyword) : option keyword :=
  match pending with
  | Some _ => pending
  | None =>
      if String.eqb normalizedElemText (normalized kw)
         && negb (includes ":" rawText)
      then Some kw else None
  end.

(** The body of the second [$(selector).each]. *)
Definition labelElem (kws : list keyword) (st : scan) (elem : node) : scan :=
  let rawText := trim (text elem) in
  if isEmpty rawText then st
  else
    let normalizedElemText := normalizeText rawText in
    match pendingLabel st with
    | Some pending =>
        if String.eqb normalizedElemText (normalized pending) then st
        else
          let v := valueText elem rawText in
          if isEmpty v then st
          else {| structuredData :=
                    setProperty (original pending) v (structuredData st);
                  pendingLabel := None |}
    | None =>
        {| structuredData := structuredData st;
           pendingLabel := foldl (labelKeyword rawText normalizedElemText) None kws |}
    end.

Definition secondPass (kws : list keyword) (elems : list node) (st : scan) : scan :=
  foldl (labelElem kws) st elems.

(** Both passes over an already parsed document. *)
Definition extractFrom (doc : list node) (kws : list keyword)
    : gmap string string :=
  let elems := select selector doc in
  structuredData
    (secondPass kws elems
       {| structuredData := firstPass kws elems ∅; pendingLabel := None |}).

(** [extractStructuredData(html, keywords)]; [load] is [cheerio.load]. *)
Definition extractStructuredData (load : string -> list node)
    (html keywords : jsval) : result string (gmap string string) :=
  match html with
  | JStr html =>
      match keywords with
      | JArr keywords =>
          Ok (extractFrom (load html) (normalizedKeywords keywords))
      | _ => Err "Keywords must be provided as an array of strings."
      end
  | _ => Err "HTML must be a string."
  end.

(** *** Notions the properties are stated with *)

(** [rawText] of an element, in both passes. *)
Definition rawTextOf (elem : node) : string := trim (text elem).

(** The value that the inline pattern finds for a keyword in [rawText],
    if any: what [inlineKeyword] computes before it writes. *)
Definition inlineValue (rawText : string) (kw : keyword) : option string :=
  match indexOf (normalized kw) (toLowerCase rawText) with
  | None => None
  | Some idx =>
      let afterKeyword := slice (idx + String.length (normalized kw)) rawText in
      match indexOf ":" afterKeyword with
      | None => None
      | Some colonIndex =>
          let value := trim (slice (colonIndex + 1) afterKeyword) in
          if isEmpty value then None else Some value
      end
  end.

(** An element that the second pass takes for the label of [kw]. *)
Definition isLabelFor (kw : keyword) (elem : node) : Prop :=
  rawTextOf elem <> ""
  /\ normalizeText (rawTextOf elem) = normalized kw
  /\ includes ":" (rawTextOf elem) = false.

(** An element that the second pass does not take for the value of the
    pending label [kw]: it is empty or repeats the label. *)
Definition skippedFor (kw : keyword) (elem : node) : Prop :=
  rawTextOf elem = "" \/ normalizeText (rawTextOf elem) = normalized kw.

(** Some element holds the inline pattern of [kw] with the value [v]. *)
Definition inlineMatch (elems : list node) (kw : keyword) (v : string) : Prop :=
  exists e, e ∈ elems /\ inlineValue (rawTextOf e) kw = Some v.

(** Some element is the label of [kw] and some element, with a text of
    its own that is not the label's, has the derived value [v]. *)
Definition labelMatch (elems : list node) (kw : keyword) (v : string) : Prop :=
  exists lab val,
    lab ∈ elems /\ val ∈ elems /\ isLabelFor kw lab
    /\ rawTextOf val <> ""
    /\ normalizeText (rawTextOf val) <> normalized kw
    /\ valueText val (rawTextOf val) = v.

(** An entry that the extraction may hold: a trimmed, non-empty value that
    one of the two patterns yields for a keyword of that original form. *)
Definition justified (kws : list keyword) (elems : list node)
    (key v : string) : Prop :=
  Trimmed v
  /\ exists kw, kw ∈ kws /\ original kw = key
                /\ (inlineMatch elems kw v \/ labelMatch elems kw v).

Definition allJustified (kws : list keyword) (elems : list node)
    (sd : gmap string string) : Prop :=
  forall key v, sd !! key = Some v -> justified kws elems key v.

(** The pending label, when there is one, is a keyword met as a label. *)
Definition pendingJustified (kws : list keyword) (elems : list node)
    (p : option keyword) : Prop :=
  forall kw, p = Some kw ->
             kw ∈ kws /\ exists lab, lab ∈ elems /\ isLabelFor kw lab.

(** What each pass writes, on its own, into an empty mapping. *)
Definition inlineWrites (doc : list node) (kws : list keyword)
    : gmap string string :=
  firstPass kws (select selector doc) ∅.

Definition labelWrites (doc : list node) (kws : list keyword)
    : gmap string string :=
  structuredData
    (secondPass kws (select selector doc)
       {| structuredData := ∅; pendingLabel := None |}).

(** The document that the parser builds around the markup of a body. *)
Definition page (body : list node) : list node :=
  [Elem "html" [Elem "head" []; Elem "body" body]].

End Extractor.
Import Extractor.

(** ** extractDocId, downloadDoc, convertToHtml, processGoogleDoc *)

Module Fetcher.

Record httpResponse : Type :=
  { status : Z;
    contentType : option string (* response.headers['content-type'] *) }.

(** A thrown [Error]: its message and, for an error of the HTTP client,
    the response it carries. *)
Record jsError : Type :=
  { message : string; response : option httpResponse }.

Definition newError (m : string) : jsError :=
  {| message := m; response := None |}.

(** What the network does with a request: a reply, or no reply at all. *)
Inductive httpOutcome : Type :=
  | Reply (r : httpResponse)
  | NoReply (reason : string).

(** Everything outside the program that a request meets. *)
Record world : Type :=
  { mkdtempSync : result string string;
    httpGet : string -> httpOutcome;
    writeFileSync : string -> option string;
    existsSync : string -> bool;
    mammoth : string -> result string string;
    load : string -> list node }.

Definition invalidUrl : string :=
  "Invalid URL: URL must be a non-empty string.".
Definition invalidDocsUrl : string :=
  "Invalid Google Docs URL: Unable to extract document ID.".
Definition unauthorized : string :=
  "Unauthorized access: The Google Doc is not publicly accessible or requires authentication.".
Definition unexpected : string :=
  "Unexpected response from Google Docs. The document may not be publicly accessible or the URL may be invalid.".
Definition notFound : string :=
  "Document not found: Please verify the Google Docs URL.".
Definition failedDownload : string :=
  "Failed to download document from Google Docs: ".
Definition docxMime : string :=
  "application/vnd.openxmlformats-officedocument.wordprocessingml.document".

Definition docsPath : string := "://docs.google.com/document/d/".

(** The rest of the pattern after [https?]: the literal path, then
    [([^/]+)], which is greedy and must take one character at least. *)
Definition matchPath (s : string) : option string :=
  match stripPrefix docsPath s with
  | None => None
  | Some t =>
      let id := takeUntil "/" t in
      if isEmpty id then None else Some id
  end.

(** The pattern tried at the start of [s]; [s?] first takes the [s] and
    gives it back when the rest fails. *)
Definition matchHere (s : string) : option string :=
  match stripPrefix "http" s with
  | None => None
  | Some r =>
      match r with
      | String c r' =>
          if Ascii.eqb c "s"
          then match matchPath r' with
               | Some id => Some id
               | None => matchPath r
               end
          else matchPath r
      | "" => matchPath r
      end
  end.

(** [url.match(/https?:\/\/docs\.google\.com\/document\/d\/([^/]+)/)]:
    group 1 of the leftmost match. *)
Fixpoint matchDocUrl (s : string) : option string :=
  match matchHere s with
  | Some id => Some id
  | None =>
      match s with
      | "" => None
      | String _ r => matchDocUrl r
      end
  end.

(** The schemes the pattern admits. *)
Definition isScheme (sch : string) : Prop := sch = "http" \/ sch = "https".

(** A string that is, as a whole, [scheme://docs.google.com/document/d/ID/...]. *)
Definition docUrlForm (u id : string) : Prop :=
  exists sch rest,
    isScheme sch /\ id <> "" /\ lacks "/" id
    /\ u = sch +:+ docsPath +:+ id +:+ "/" +:+ rest.

(** The pattern occurs in [u] after the prefix [pre]: a scheme, the
    literal path and one character that is not a slash. *)
Definition occursAt (pre u : string) : Prop :=
  exists sch c rest,
    isScheme sch /\ c <> "/"%char
    /\ u = pre +:+ sch +:+ docsPath +:+ String c rest.

Definition hasDocUrl (u : string) : Prop := exists pre, occursAt pre u.

Definition extractDocId (url : jsval) : result jsError string :=
  match url with
  | JStr url =>
      if isEmpty (trim url) then Err (newError invalidUrl)
      else
        match matchDocUrl url with
        | Some id => Ok id
        | None => Err (newError invalidDocsUrl)
        end
  | _ => Err (newError invalidUrl)
  end.

Definition buildExportUrl (docId : string) : string :=
  "https://docs.google.com/document/d/" +:+ docId +:+ "/export?format=docx".

Definition validateStatus (status : Z) : bool :=
  ((200 <=? status) && (status <? 400))%Z.

(** [axios.get] with [validateStatus]: the promise resolves with the
    reply when [validateStatus] accepts its status, and is rejected
    otherwise with an error that carries the reply. *)
Definition axiosGet (o : httpOutcome) : result jsError httpResponse :=
  match o with
  | Reply r =>
      if validateStatus (status r) then Ok r
      else Err {| message := "Request failed with status code "
                              +:+ NilEmpty.string_of_int (Z.to_int (status r));
                  response := Some r |}
  | NoReply reason => Err (newError reason)
  end.

(** [contentType && contentType.includes(...)]. *)
Definition isDocx (response : httpResponse) : bool :=
  match contentType response with
  | Some ct => negb (isEmpty ct) && includes docxMime ct
  | None => false
  end.

(** The [try] block of [downloadDoc]. *)
Definition tryDownload (w : world) (exportUrl tempFilePath : string)
    : result jsError string :=
  match axiosGet (httpGet w exportUrl) with
  | Err err => Err err
  | Ok response =>
      if ((status response =? 401) || (status response =? 403))%Z
      then Err (newError unauthorized)
      else
        if negb (isDocx response) then Err (newError unexpected)
        else
          match writeFileSync w tempFilePath with
          | Some m => Err (newError m)
          | None => Ok tempFilePath
          end
  end.

(** The [catch] block of [downloadDoc], after the clean-up (which
    swallows its own failures). *)
Definition catchDownload (err : jsError) : jsError :=
  if match response err with
     | Some r => (status r =? 404)%Z
     | None => false
     end
  then newError notFound
  else if negb (isEmpty (message err))
          && includes "unauthorized access" (toLowerCase (message err))
  then err
  else newError (failedDownload +:+ message err).

Definition downloadDoc (w : world) (docUrl : jsval) : result jsError string :=
  match extractDocId docUrl with
  | Err e => Err e
  | Ok docId =>
      let exportUrl := buildExportUrl docId in
      match mkdtempSync w with
      | Err m => Err (newError m)
      | Ok tempDir =>
          let tempFilePath := tempDir +:+ "/" +:+ docId +:+ ".docx" in
          match tryDownload w exportUrl tempFilePath with
          | Ok path => Ok path
          | Err err => Err (catchDownload err)
          end
      end
  end.

Definition convertToHtml (w : world) (docxPath : string)
    : result jsError string :=
  if isEmpty docxPath then Err (newError "Invalid DOCX path.")
  else if negb (existsSync w docxPath)
  then Err (newError "DOCX file does not exist at the given path.")
  else
    match mammoth w docxPath with
    | Ok value => Ok value
    | Err m => Err (newError ("Failed to convert DOCX to HTML: " +:+ m))
    end.

Definition orEmptyArray (keywords : jsval) : jsval :=
  if truthy keywords then keywords else JArr [].

(** [processGoogleDoc]; its [finally] block only removes files. *)
Definition processGoogleDoc (w : world) (url keywords : jsval)
    : result jsError (string * gmap string string) :=
  match downloadDoc w url with
  | Err e => Err e
  | Ok tempFilePath =>
      match convertToHtml w tempFilePath with
      | Err e => Err e
      | Ok rawHtml =>
          match extractStructuredData (load w) (JStr rawHtml)
                                      (orEmptyArray keywords) with
          | Err m => Err (newError m)
          | Ok structuredData => Ok (rawHtml, structuredData)
          end
      end
  end.

(** *** The four failures that the description of [downloadDoc] names,
    told apart by the text of the message *)

Definition isUnauthorizedError (e : jsError) : bool :=
  startsWith "Unauthorized access" (message e).
Definition isUnexpectedError (e : jsError) : bool :=
  includes "Unexpected response" (message e).
Definition isNotFoundError (e : jsError) : bool :=
  startsWith "Document not found" (message e).
Definition isGenericError (e : jsError) : bool :=
  startsWith failedDownload (message e).

End Fetcher.
Import Fetcher.

(** ** POST /parse-doc *)

Module Endpoint.

(** [req.body || {}], destructured. *)
Record request : Type := { url : jsval; keywords : jsval }.

Inductive json : Type :=
  | ErrorJson (error : string)
  | ResultJson (rawHtml : string) (structuredData : gmap string string).

Record reply : Type := { code : Z; body : json }.

Definition fail (code : Z) (error : string) : reply :=
  {| code := code; body := ErrorJson error |}.

(** The double quote character, for the two messages that quote a
    field name. *)
Definition dq : string := String (ascii_of_nat 34) "".

Definition missingUrl : string :=
  "Invalid request: " +:+ dq +:+ "url" +:+ dq
    +:+ " is required and must be a string.".
Definition badKeywords : string :=
  "Invalid request: " +:+ dq +:+ "keywords" +:+ dq
    +:+ " must be an array of strings if provided.".

(** The [catch] block of the handler. *)
Definition errorReply (err : jsError) : reply :=
  let message :=
    if isEmpty (message err) then "Unknown error" else message err in
  if includes "Unauthorized access" message
     || includes "not publicly accessible" message
  then fail 403 message
  else if includes "Document not found" message then fail 404 message
  else if includes "Invalid Google Docs URL" message then fail 400 message
  else fail 500 message.

Definition parseDoc (w : world) (req : request) : reply :=
  if negb (truthy (url req)) || negb (isString (url req))
  then fail 400 missingUrl
  else if truthy (keywords req) && negb (isArray (keywords req))
  then fail 400 badKeywords
  else
    match processGoogleDoc w (url req) (orEmptyArray (keywords req)) with
    | Ok (rawHtml, structuredData) =>
        {| code := 200; body := ResultJson rawHtml structuredData |}
    | Err err => errorReply err
    end.

(** The array that reaches the extraction: the items of [keywords], or
    none when [keywords] is not an array. *)
Definition keywordItems (keywords : jsval) : list jsval :=
  match keywords with JArr items => items | _ => [] end.

(** [path.join(tempDir, docId + '.docx')]. *)
Definition docxPath (tempDir docId : string) : string :=
  tempDir +:+ "/" +:+ docId +:+ ".docx".

(** *** Worlds for the examples *)

Definition docxReply : httpResponse :=
  {| status := 200; contentType := Some docxMime |}.

(** A public document with one paragraph. *)
Definition publicDoc : world :=
  {| mkdtempSync := Ok "/tmp/gdoc-parser-a1";
     httpGet := fun _ => Reply docxReply;
     writeFileSync := fun _ => None;
     existsSync := fun _ => true;
     mammoth := fun _ => Ok "<p>Total: 42</p>";
     load := fun _ => page [Elem "p" [Text "Total: 42"]] |}.

(** The same world with another answer of the network. *)
Definition answering (o : httpOutcome) : world :=
  {| mkdtempSync := mkdtempSync publicDoc;
     httpGet := fun _ => o;
     writeFileSync := writeFileSync publicDoc;
     existsSync := existsSync publicDoc;
     mammoth := mammoth publicDoc;
     load := load publicDoc |}.

Definition docUrl : jsval :=
  JStr "https://docs.google.com/document/d/abc/edit".

End Endpoint.
Import Endpoint.

(** * Properties *)

(** ** Facts about the string operations *)

Section StringFacts.

Lemma append_assoc (a b c : string) : (a +:+ b) +:+ c = a +:+ b +:+ c.
Proof. induction a as [|x a IH]; simpl; [done | by rewrite IH]. Qed.

Lemma isEmpty_true (s : string) : isEmpty s = true <-> s = "".
Proof. destruct s; simpl; split; congruence. Qed.

Lemma isEmpty_false (s : string) : isEmpty s = false <-> s <> "".
Proof. destruct s; simpl; split; congruence. Qed.




Lemma indexOf_eq (p s : string) :
  indexOf p s =
    if startsWith p s then Some 0
    else match s with
         | "" => None
         | String _ r => option_map S (indexOf p r)
         end.
Proof. by destruct s. Qed.






(** *** trim *)

Lemma trimEnd_head (c : ascii) (r : string) :
  isWhite c = false -> exists r', trimEnd (String c r) = String c r'.
Proof.
  intros Hc. simpl. destruct (trimEnd r) as [|d r'].
  - rewrite Hc. by exists "".
  - by exists (String d r').
Qed.

Lemma trimStart_head (s : string) :
  trimStart s = "" \/
  exists c r, trimStart s = String c r /\ isWhite c = false.
Proof.
  induction s as [|c s IH]; simpl; [by left |].
  destruct (isWhite c) eqn:Hc; [done |]. right. by exists c, s.
Qed.

Lemma trimStart_id (c : ascii) (r : string) :
  isWhite c = false -> trimStart (String c r) = String c r.
Proof. intros Hc. simpl. by rewrite Hc. Qed.

Lemma trim_head (s : string) :
  trim s = "" \/ exists c r, trim s = String c r /\ isWhite c = false.
Proof.
  unfold trim. destruct (trimStart_head s) as [->|(c & r & -> & Hc)].
  - by left.
  - right. destruct (trimEnd_head c r Hc) as [r' ->]. by exists c, r'.
Qed.

Lemma trimEnd_idem (s : string) : trimEnd (trimEnd s) = trimEnd s.
Proof.
  induction s as [|c s IH]; simpl; [done |].
  destruct (trimEnd s) as [|d r'] eqn:E.
  - destruct (isWhite c) eqn:Hc; simpl; [done | by rewrite Hc].
  - change (trimEnd (String c (String d r'))) with
      (match trimEnd (String d r') with
       | "" => if isWhite c then "" else String c ""
       | x => String c x
       end).
    by rewrite IH.
Qed.

Lemma trim_idem (s : string) : trim (trim s) = trim s.
Proof.
  destruct (trim_head s) as [->|(c & r & E & Hc)]; [done |].
  unfold trim at 1. rewrite E, (trimStart_id c r Hc), <- E.
  unfold trim. apply trimEnd_idem.
Qed.

Lemma trim_Trimmed (s : string) : trim s <> "" -> Trimmed (trim s).
Proof. intros H. split; [done | apply trim_idem]. Qed.

Lemma Trimmed_head (s : string) :
  Trimmed s -> exists c r, s = String c r /\ isWhite c = false.
Proof.
  intros [Hne Ht]. destruct (trim_head s) as [E|(c & r & E & Hc)].
  - congruence.
  - exists c, r. split; congruence.
Qed.

Lemma Trimmed_trimEnd (s : string) : Trimmed s -> trimEnd s = s.
Proof.
  intros H. destruct (Trimmed_head s H) as (c & r & -> & Hc).
  destruct H as [_ Ht]. unfold trim in Ht.
  by rewrite (trimStart_id c r Hc) in Ht.
Qed.

Lemma trimEnd_app (a b : string) :
  trimEnd b <> "" -> trimEnd (a +:+ b) = a +:+ trimEnd b.
Proof.
  intros Hb. induction a as [|c a IH]; simpl; [done |].
  rewrite IH. destruct (a +:+ trimEnd b) eqn:E; [| done].
  destruct a; simpl in E; congruence.
Qed.

Lemma Trimmed_append (a sep b : string) :
  Trimmed a -> Trimmed b -> Trimmed (a +:+ sep +:+ b).
Proof.
  intros Ha Hb. destruct (Trimmed_head a Ha) as (c & r & -> & Hc).
  split; [done |]. unfold trim.
  change (String c r +:+ sep +:+ b) with (String c (r +:+ sep +:+ b)).
  rewrite (trimStart_id c _ Hc).
  change (String c (r +:+ sep +:+ b)) with (String c r +:+ sep +:+ b).
  rewrite <- append_assoc, trimEnd_app; rewrite (Trimmed_trimEnd b Hb);
    [done | by destruct Hb].
Qed.

Lemma join_Trimmed (sep : string) (items : list string) :
  items <> [] -> Forall Trimmed items -> Trimmed (join sep items).
Proof.
  induction items as [|x [|y rest] IH]; intros Hne Hall; [done | |].
  - simpl. by inversion Hall.
  - inversion Hall as [|? ? Hx Hrest]; subst.
    change (join sep (x :: y :: rest)) with (x +:+ sep +:+ join sep (y :: rest)).
    apply Trimmed_append; [done |]. by apply IH.
Qed.

End StringFacts.

(** ** The first pass *)

Section FirstPass.

Lemma normalizedKeywords_elem (keywords : list jsval) (kw : keyword) :
  kw ∈ normalizedKeywords keywords ->
  exists k, JStr k ∈ keywords /\ trim k <> ""
            /\ kw = {| original := k; normalized := trim (toLowerCase k) |}.
Proof.
  unfold normalizedKeywords. rewrite list_elem_of_omap.
  intros (v & Hv & Hk). destruct v; simpl in Hk; try done.
  destruct (isEmpty (trim s)) eqn:E; [done |].
  injection Hk as <-. exists s. split_and!; [done | by apply isEmpty_false | done].
Qed.

(** Two normalized keywords with the same original are the same keyword. *)
Lemma normalizedKeywords_same (keywords : list jsval) (k1 k2 : keyword) :
  k1 ∈ normalizedKeywords keywords -> k2 ∈ normalizedKeywords keywords ->
  original k1 = original k2 -> k1 = k2.
Proof.
  intros H1 H2 Ho.
  destruct (normalizedKeywords_elem _ _ H1) as (a & _ & _ & ->).
  destruct (normalizedKeywords_elem _ _ H2) as (b & _ & _ & ->).
  simpl in Ho. by subst.
Qed.

Lemma setProperty_plain (key value : string) (obj : gmap string string) :
  key <> "__proto__" -> setProperty key value obj = <[key := value]> obj.
Proof.
  intros H. unfold setProperty.
  by destruct (String.eqb_spec key "__proto__").
Qed.

Lemma lookup_setProperty_ne (key k value : string)
    (obj : gmap string string) :
  k <> key -> setProperty k value obj !! key = obj !! key.
Proof.
  intros H. unfold setProperty.
  destruct (String.eqb k "__proto__"); [done | by rewrite lookup_insert_ne].
Qed.

(** Whatever a lookup finds after an assignment is the assigned value
    or was there before; nothing is ever found under [__proto__]. *)
Lemma lookup_setProperty_Some (key k value w : string)
    (obj : gmap string string) :
  setProperty k value obj !! key = Some w ->
  (k = key /\ w = value /\ key <> "__proto__") \/ obj !! key = Some w.
Proof.
  unfold setProperty.
  destruct (String.eqb_spec k "__proto__") as [->|Hk]; [by right |].
  rewrite lookup_insert. case_decide as E; [| by right].
  intros [= <-]. left. by subst.
Qed.

Lemma setProperty_union (k value : string) (m obj : gmap string string) :
  setProperty k value (m ∪ obj) = setProperty k value m ∪ obj.
Proof.
  unfold setProperty.
  destruct (String.eqb k "__proto__"); [done | by rewrite insert_union_l].
Qed.

Lemma inlineKeyword_value (rawText : string) (sd : gmap string string)
    (kw : keyword) :
  inlineKeyword rawText (toLowerCase rawText) sd kw =
    match inlineValue rawText kw with
    | Some v => setProperty (original kw) v sd
    | None => sd
    end.
Proof.
  unfold inlineKeyword, inlineValue, includes.
  destruct (indexOf (normalized kw) (toLowerCase rawText)); simpl; [| done].
  destruct (indexOf ":" _); [| done].
  by destruct (isEmpty _).
Qed.

Lemma inlineValue_empty (kw : keyword) : inlineValue "" kw = None.
Proof.
  unfold inlineValue. change (toLowerCase "") with "".
  destruct (indexOf (normalized kw) "") as [i|]; [| done].
  assert (E : forall n, slice n "" = "") by (by intros []).
  by rewrite E.
Qed.

(** One element, all keywords: what the mapping holds under [key] after. *)
Lemma foldl_inlineKeyword_lookup (rawText key : string) (o : option string)
    (kws : list keyword) (sd : gmap string string) :
  (forall k, k ∈ kws -> original k = key -> inlineValue rawText k = o) ->
  foldl (inlineKeyword rawText (toLowerCase rawText)) sd kws !! key =
    match (if existsb (fun k => String.eqb (original k) key) kws
           then (if String.eqb key "__proto__" then None else o)
           else None) with
    | Some v => Some v
    | None => sd !! key
    end.
Proof.
  revert sd. induction kws as [|k kws IH]; intros sd Hall; simpl; [done |].
  rewrite IH by (intros; apply Hall; [by apply list_elem_of_further | done]).
  rewrite inlineKeyword_value.
  destruct (String.eqb_spec (original k) key) as [Hk|Hk]; simpl.
  - rewrite (Hall k) by (done || apply list_elem_of_here).
    destruct (String.eqb_spec key "__proto__") as [Hp|Hp].
    + destruct o as [v|]; [| by repeat case_match].
      unfold setProperty. rewrite Hk, Hp. by repeat case_match.
    + destruct o as [v|]; [| by repeat case_match].
      rewrite setProperty_plain by congruence.
      rewrite <- Hk, lookup_insert_eq. by repeat case_match.
  - destruct (inlineValue rawText k); [| done].
    by rewrite lookup_setProperty_ne.
Qed.

Lemma existsb_original (kws : list keyword) (kw : keyword) :
  kw ∈ kws ->
  existsb (fun k => String.eqb (original k) (original kw)) kws = true.
Proof.
  intros H. apply existsb_exists. exists kw.
  split; [by apply list_elem_of_In | apply String.eqb_refl].
Qed.

Lemma inlineElem_lookup_any (keywords : list jsval) (kw : keyword)
    (sd : gmap string string) (elem : node) :
  kw ∈ normalizedKeywords keywords ->
  inlineElem (normalizedKeywords keywords) sd elem !! original kw =
    match (if String.eqb (original kw) "__proto__" then None
           else inlineValue (rawTextOf elem) kw) with
    | Some v => Some v
    | None => sd !! original kw
    end.
Proof.
  intros Hkw. unfold inlineElem, rawTextOf.
  destruct (isEmpty (trim (text elem))) eqn:E.
  - apply isEmpty_true in E. rewrite E, inlineValue_empty.
    by destruct (String.eqb _ _).
  - rewrite (foldl_inlineKeyword_lookup _ _ (inlineValue (trim (text elem)) kw)).
    + by rewrite existsb_original.
    + intros k Hk Ho. by rewrite (normalizedKeywords_same _ _ _ Hk Hkw Ho).
Qed.

Lemma inlineElem_lookup (keywords : list jsval) (kw : keyword)
    (sd : gmap string string) (elem : node) :
  kw ∈ normalizedKeywords keywords ->
  original kw <> "__proto__" ->
  inlineElem (normalizedKeywords keywords) sd elem !! original kw =
    match inlineValue (rawTextOf elem) kw with
    | Some v => Some v
    | None => sd !! original kw
    end.
Proof.
  intros Hkw Hp. rewrite inlineElem_lookup_any by done.
  by destruct (String.eqb_spec (original kw) "__proto__").
Qed.



Lemma firstPass_cons (kws : list keyword) (e : node) (es : list node)
    (sd : gmap string string) :
  firstPass kws (e :: es) sd = firstPass kws es (inlineElem kws sd e).
Proof. done. Qed.



End FirstPass.

Section InlinePattern.






End InlinePattern.

(** ** The second pass *)

Section SecondPass.

Lemma secondPass_cons (kws : list keyword) (e : node) (es : list node)
    (st : scan) :
  secondPass kws (e :: es) st = secondPass kws es (labelElem kws st e).
Proof. done. Qed.

Lemma secondPass_app (kws : list keyword) (es1 es2 : list node) (st : scan) :
  secondPass kws (es1 ++ es2) st = secondPass kws es2 (secondPass kws es1 st).
Proof. apply foldl_app. Qed.

Lemma labelElem_skipped (kws : list keyword) (sd : gmap string string)
    (pending : keyword) (e : node) :
  skippedFor pending e ->
  labelElem kws {| structuredData := sd; pendingLabel := Some pending |} e
    = {| structuredData := sd; pendingLabel := Some pending |}.
Proof.
  unfold skippedFor, rawTextOf, labelElem. intros [H|H]; simpl.
  - by rewrite H.
  - destruct (isEmpty (trim (text e))); [done |].
    by rewrite H, String.eqb_refl.
Qed.

Lemma secondPass_skipped (kws : list keyword) (sd : gmap string string)
    (pending : keyword) (es : list node) :
  (forall x, x ∈ es -> skippedFor pending x) ->
  secondPass kws es {| structuredData := sd; pendingLabel := Some pending |}
    = {| structuredData := sd; pendingLabel := Some pending |}.
Proof.
  induction es as [|e es IH]; intros Hall; [done |].
  rewrite secondPass_cons, labelElem_skipped by (apply Hall, list_elem_of_here).
  apply IH. intros x Hx. by apply Hall, list_elem_of_further.
Qed.




(** With nothing pending, the first keyword in the caller's order whose
    normalized form is the element's normalized text becomes pending. *)
Lemma foldl_labelKeyword_pending (rawText norm : string) (kw : keyword)
    (kws : list keyword) :
  foldl (labelKeyword rawText norm) (Some kw) kws = Some kw.
Proof. induction kws as [|k kws IH]; simpl; done. Qed.

Lemma foldl_labelKeyword_first (rawText : string) (kw : keyword)
    (earlier later : list keyword) :
  includes ":" rawText = false ->
  (forall k, k ∈ earlier -> normalized k <> normalized kw) ->
  foldl (labelKeyword rawText (normalized kw)) None (earlier ++ kw :: later)
    = Some kw.
Proof.
  intros Hcolon. induction earlier as [|k earlier IH]; intros Hall; simpl.
  - rewrite String.eqb_refl, Hcolon. simpl. apply foldl_labelKeyword_pending.
  - destruct (String.eqb_spec (normalized kw) (normalized k)) as [E|_].
    + destruct (Hall k); [apply list_elem_of_here | done].
    + simpl. apply IH. intros x Hx. by apply Hall, list_elem_of_further.
Qed.

Lemma foldl_labelKeyword_Some (rawText norm : string) (kw : keyword)
    (kws : list keyword) :
  foldl (labelKeyword rawText norm) None kws = Some kw ->
  kw ∈ kws /\ norm = normalized kw /\ includes ":" rawText = false.
Proof.
  induction kws as [|k kws IH]; simpl; [done |].
  destruct (String.eqb_spec norm (normalized k)) as [E|_]; simpl.
  - destruct (includes ":" rawText) eqn:Hc; simpl.
    + intros H. destruct (IH H) as (? & ? & ?).
      split_and!; [by apply list_elem_of_further | done | done].
    + rewrite foldl_labelKeyword_pending. intros [= <-].
      split_and!; [apply list_elem_of_here | done | done].
  - intros H. destruct (IH H) as (? & ? & ?).
    split_and!; [by apply list_elem_of_further | done | done].
Qed.

Lemma labelElem_label (kws : list keyword) (sd : gmap string string)
    (e : node) :
  rawTextOf e <> "" ->
  labelElem kws {| structuredData := sd; pendingLabel := None |} e =
    {| structuredData := sd;
       pendingLabel :=
         foldl (labelKeyword (rawTextOf e) (normalizeText (rawTextOf e)))
               None kws |}.
Proof.
  unfold rawTextOf, labelElem. intros Hne. simpl.
  apply isEmpty_false in Hne. by rewrite Hne.
Qed.

End SecondPass.

Section LabelValuePattern.




(** C8: while a label is pending, an element whose normalized text is the
    pending label's normalized text is skipped and the pending state is
    left as it is; so is every run of such elements, and the label waits
    for the next element with another text. *)
Theorem duplicate_heading_skipped :
  (forall (kws : list keyword) (sd : gmap string string) (pending : keyword)
          (e : node),
      normalizeText (rawTextOf e) = normalized pending ->
      labelElem kws {| structuredData := sd; pendingLabel := Some pending |} e
      = {| structuredData := sd; pendingLabel := Some pending |})
  /\ (forall (kws : list keyword) (sd : gmap string string)
             (pending : keyword) (dups rest : list node),
         (forall x, x ∈ dups ->
                    normalizeText (rawTextOf x) = normalized pending) ->
         secondPass kws (dups ++ rest)
                    {| structuredData := sd; pendingLabel := Some pending |}
         = secondPass kws rest
                      {| structuredData := sd; pendingLabel := Some pending |}).
Proof.
  split.
  - intros kws sd pending e H. apply labelElem_skipped. by right.
  - intros kws sd pending dups rest H.
    rewrite secondPass_app, secondPass_skipped; [done |].
    intros x Hx. right. by apply H.
Qed.

Lemma duplicate_heading_skipped_witness :
  labelElem [] {| structuredData := ∅;
                  pendingLabel :=
                    Some {| original := "Title"; normalized := "title" |} |}
            (Elem "h2" [Text " TITLE "])
  = {| structuredData := ∅;
       pendingLabel := Some {| original := "Title"; normalized := "title" |} |}
  /\ secondPass [] ([Elem "h2" [Text "Title"]; Elem "p" [Text "title"]]
                      ++ [Elem "p" [Text "Widget"]])
       {| structuredData := ∅;
          pendingLabel := Some {| original := "Title"; normalized := "title" |} |}
     = {| structuredData := {[ "Title" := "Widget" ]}; pendingLabel := None |}.
Proof.
  destruct duplicate_heading_skipped as [Hone Hrun]. split.
  - apply Hone. reflexivity.
  - rewrite Hrun.
    + vm_compute. reflexivity.
    + intros x Hx. apply elem_of_cons in Hx as [->|Hx]; [reflexivity |].
      apply list_elem_of_singleton in Hx as ->. reflexivity.
Defined.




End LabelValuePattern.

(** ** Both passes on one mapping *)

Section Overwrite.

(** The second pass never reads the mapping: what it is given stays
    underneath what it writes. *)
Lemma labelElem_union (kws : list keyword) (m sd : gmap string string)
    (p : option keyword) (e : node) :
  labelElem kws {| structuredData := m ∪ sd; pendingLabel := p |} e =
    {| structuredData :=
         structuredData
           (labelElem kws {| structuredData := m; pendingLabel := p |} e) ∪ sd;
       pendingLabel :=
         pendingLabel
           (labelElem kws {| structuredData := m; pendingLabel := p |} e) |}.
Proof.
  unfold labelElem. simpl.
  destruct (isEmpty (trim (text e))); [done |].
  destruct p as [pending|]; [| done].
  destruct (String.eqb _ (normalized pending)); [done |].
  destruct (isEmpty (valueText e (trim (text e)))); [done |].
  simpl. by rewrite setProperty_union.
Qed.

Lemma secondPass_union (kws : list keyword) (es : list node)
    (m sd : gmap string string) (p : option keyword) :
  secondPass kws es {| structuredData := m ∪ sd; pendingLabel := p |} =
    {| structuredData :=
         structuredData
           (secondPass kws es {| structuredData := m; pendingLabel := p |}) ∪ sd;
       pendingLabel :=
         pendingLabel
           (secondPass kws es {| structuredData := m; pendingLabel := p |}) |}.
Proof.
  revert m p. induction es as [|e es IH]; intros m p; [done |].
  rewrite !secondPass_cons, labelElem_union, IH.
  by destruct (labelElem kws _ e).
Qed.

Lemma extractFrom_union (doc : list node) (kws : list keyword) :
  extractFrom doc kws = labelWrites doc kws ∪ inlineWrites doc kws.
Proof.
  unfold extractFrom, labelWrites, inlineWrites.
  rewrite <- (left_id_L ∅ (∪) (firstPass kws (select selector doc) ∅)) at 1.
  by rewrite secondPass_union.
Qed.




End Overwrite.

(** ** What the mapping can hold *)

Section WellFormed.

Variable kws : list keyword.
Variable elems : list node.

Lemma inlineValue_Trimmed (rawText v : string) (kw : keyword) :
  inlineValue rawText kw = Some v -> Trimmed v.
Proof.
  unfold inlineValue.
  destruct (indexOf (normalized kw) (toLowerCase rawText)); [| done].
  destruct (indexOf ":" _); [| done].
  destruct (isEmpty _) eqn:E; [done |].
  intros [= <-]. apply trim_Trimmed. by apply isEmpty_false.
Qed.

Lemma cellTexts_Trimmed (tags : list string) (e : node) :
  Forall Trimmed (cellTexts tags e).
Proof.
  unfold cellTexts. apply Forall_forall. intros t Ht.
  apply list_elem_of_In, filter_In in Ht as [Hin Hne].
  apply in_map_iff in Hin as (c & <- & _).
  apply trim_Trimmed. apply isEmpty_false. by destruct (isEmpty _).
Qed.

Lemma join_nonempty (sep : string) (items : list string) :
  join sep items <> "" -> items <> [].
Proof. by destruct items. Qed.

Lemma valueText_Trimmed (e : node) :
  valueText e (rawTextOf e) <> "" -> Trimmed (valueText e (rawTextOf e)).
Proof.
  unfold valueText.
  destruct (String.eqb _ "ul");
    [| destruct (String.eqb _ "table")]; intros H.
  - apply join_Trimmed; [by eapply join_nonempty | apply cellTexts_Trimmed].
  - apply join_Trimmed; [by eapply join_nonempty | apply cellTexts_Trimmed].
  - by apply trim_Trimmed.
Qed.

Lemma foldl_inlineKeyword_justified (ks : list keyword)
    (sd : gmap string string) (e : node) :
  (forall k, k ∈ ks -> k ∈ kws) -> e ∈ elems ->
  allJustified kws elems sd ->
  allJustified kws elems
    (foldl (inlineKeyword (rawTextOf e) (toLowerCase (rawTextOf e))) sd ks).
Proof.
  intros Hsub He. revert sd Hsub.
  induction ks as [|k ks IH]; intros sd Hsub Hsd; simpl; [done |].
  apply IH; [intros; by apply Hsub, list_elem_of_further |].
  rewrite inlineKeyword_value.
  destruct (inlineValue (rawTextOf e) k) as [v|] eqn:Ev; [| done].
  intros key w Hw.
  apply lookup_setProperty_Some in Hw as [(Hk & -> & _) | Hw]; [| by apply Hsd].
  split; [by eapply inlineValue_Trimmed |].
  exists k. split_and!; [apply Hsub, list_elem_of_here | done |].
  left. by exists e.
Qed.

Lemma inlineElem_justified (sd : gmap string string) (e : node) :
  e ∈ elems -> allJustified kws elems sd ->
  allJustified kws elems (inlineElem kws sd e).
Proof.
  intros He Hsd. unfold inlineElem.
  destruct (isEmpty (trim (text e))); [done |].
  by apply foldl_inlineKeyword_justified.
Qed.

Lemma firstPass_justified (es : list node) (sd : gmap string string) :
  (forall e, e ∈ es -> e ∈ elems) ->
  allJustified kws elems sd -> allJustified kws elems (firstPass kws es sd).
Proof.
  revert sd. induction es as [|e es IH]; intros sd Hsub Hsd; [done |].
  rewrite firstPass_cons. apply IH.
  - intros; by apply Hsub, list_elem_of_further.
  - apply inlineElem_justified; [apply Hsub, list_elem_of_here | done].
Qed.

Lemma labelElem_justified (st : scan) (e : node) :
  e ∈ elems ->
  allJustified kws elems (structuredData st) /\ pendingJustified kws elems (pendingLabel st) ->
  allJustified kws elems (structuredData (labelElem kws st e))
  /\ pendingJustified kws elems (pendingLabel (labelElem kws st e)).
Proof.
  intros He [Hsd Hp]. unfold labelElem.
  destruct (isEmpty (trim (text e))) eqn:Hraw; [done |].
  apply isEmpty_false in Hraw.
  destruct (pendingLabel st) as [pending|] eqn:Epend.
  - destruct (String.eqb_spec (normalizeText (trim (text e)))
                              (normalized pending)) as [|Hdiff].
    { rewrite Epend. done. }
    destruct (isEmpty (valueText e (trim (text e)))) eqn:Ev.
    { rewrite Epend. done. }
    apply isEmpty_false in Ev. simpl. split; [| done].
    destruct (Hp pending eq_refl) as (Hin & lab & Hlab & Hisl).
    intros key w Hw.
    apply lookup_setProperty_Some in Hw as [(Hk & -> & _) | Hw];
      [| by apply Hsd].
    split; [by apply valueText_Trimmed |].
    exists pending. split_and!; [done | done |].
    right. by exists lab, e.
  - simpl. split; [done |].
    intros kw Hkw. apply foldl_labelKeyword_Some in Hkw as (Hin & Hn & Hc).
    split; [done |]. by exists e.
Qed.

Lemma secondPass_justified (es : list node) (st : scan) :
  (forall e, e ∈ es -> e ∈ elems) ->
  allJustified kws elems (structuredData st) /\ pendingJustified kws elems (pendingLabel st) ->
  allJustified kws elems (structuredData (secondPass kws es st)).
Proof.
  revert st. induction es as [|e es IH]; intros st Hsub Hst; [by destruct Hst |].
  rewrite secondPass_cons. apply IH.
  - intros; by apply Hsub, list_elem_of_further.
  - apply labelElem_justified; [apply Hsub, list_elem_of_here | done].
Qed.

End WellFormed.

Lemma extractFrom_justified (doc : list node) (kws : list keyword) :
  allJustified kws (select selector doc) (extractFrom doc kws).
Proof.
  unfold extractFrom. apply secondPass_justified; [done |]. simpl. split.
  - apply firstPass_justified; [done |]. intros key v. by rewrite lookup_empty.
  - done.
Qed.

(** C9: every value of the mapping that [extractStructuredData] returns is
    non-empty, also after trimming (it is its own trimmed form), and every
    key is the original form of a supplied keyword for which the inline
    pattern or the label/value pattern yields that value on the selected
    elements; a keyword that neither pattern matches has no entry. *)
Theorem result_well_formed :
  forall (load : string -> list node) (html : string) (keywords : list jsval)
         (sd : gmap string string),
    extractStructuredData load (JStr html) (JArr keywords) = Ok sd ->
    let elems := select selector (load html) in
    (forall key v,
        sd !! key = Some v ->
        v <> "" /\ trim v <> "" /\ trim v = v
        /\ exists kw, kw ∈ normalizedKeywords keywords /\ original kw = key
                      /\ (inlineMatch elems kw v \/ labelMatch elems kw v))
    /\ (forall key,
           (forall kw v, kw ∈ normalizedKeywords keywords ->
                         original kw = key ->
                         ~ inlineMatch elems kw v /\ ~ labelMatch elems kw v) ->
           sd !! key = None).
Proof.
  intros load html keywords sd [= <-] elems.
  pose proof (extractFrom_justified (load html) (normalizedKeywords keywords))
    as Hall.
  split.
  - intros key v Hv. destruct (Hall key v Hv) as ([Hne Ht] & Hkw).
    split_and!; [done | congruence | done | done].
  - intros key Hno.
    destruct (extractFrom _ _ !! key) as [v|] eqn:Hv; [| done].
    destruct (Hall key v Hv) as (_ & kw & Hin & Ho & Hm).
    destruct (Hno kw v Hin Ho) as [Hi Hl]. by destruct Hm.
Qed.

Lemma result_well_formed_witness :
  let sd : gmap string string := {[ "Total" := "42" ]} in
  (forall key v, sd !! key = Some v -> v <> "" /\ trim v <> "" /\ trim v = v)
  /\ sd !! "Missing" = None.
Proof.
  intros sd.
  pose proof (result_well_formed
                (fun _ => page [Elem "p" [Text "Total:  42 "]])
                "<p>Total:  42 </p>" [JStr "Total"; JStr "Missing"] sd) as H.
  destruct H as [Hval Habs].
  - vm_compute. reflexivity.
  - split.
    + intros key v Hv. destruct (Hval key v Hv) as (? & ? & ? & _). done.
    + apply Habs. intros kw v Hkw Ho.
      assert (kw = {| original := "Missing"; normalized := "missing" |}) as ->.
      { vm_compute in Hkw.
        apply elem_of_cons in Hkw as [->|Hkw]; [discriminate Ho |].
        by apply list_elem_of_singleton in Hkw. }
      split.
      * intros (e & He & Hv). vm_compute in He.
        apply list_elem_of_singleton in He as ->. vm_compute in Hv. done.
      * intros (lab & val & Hlab & _ & (_ & Hn & _) & _).
        vm_compute in Hlab. apply list_elem_of_singleton in Hlab as ->.
        vm_compute in Hn. done.
Defined.

(** ** extractDocId *)

Section DocId.

Lemma stripPrefix_Some (p s r : string) :
  stripPrefix p s = Some r -> s = p +:+ r.
Proof.
  revert s. induction p as [|a p IH]; intros s; simpl.
  - by intros [= ->].
  - destruct s as [|b s]; [done |].
    destruct (Ascii.eqb_spec a b) as [->|]; [| done].
    intros H. by rewrite (IH _ H).
Qed.

Lemma stripPrefix_app (p r : string) : stripPrefix p (p +:+ r) = Some r.
Proof.
  induction p as [|a p IH]; simpl; [done |]. by rewrite Ascii.eqb_refl.
Qed.

Lemma takeUntil_lacks (c : ascii) (s : string) : lacks c (takeUntil c s).
Proof.
  induction s as [|a s IH]; simpl; [done |].
  by destruct (Ascii.eqb_spec a c).
Qed.

Lemma takeUntil_split (c : ascii) (s : string) :
  exists rest, s = takeUntil c s +:+ rest
               /\ (rest = "" \/ exists r, rest = String c r).
Proof.
  induction s as [|a s (rest & IH & Hrest)]; simpl.
  - exists "". split; [done | by left].
  - destruct (Ascii.eqb_spec a c) as [->|].
    + exists (String c s). split; [done | right; by exists s].
    + exists rest. split; [simpl; by rewrite <- IH | done].
Qed.

Lemma takeUntil_app (c : ascii) (a rest : string) :
  lacks c a -> rest = "" \/ (exists r, rest = String c r) ->
  takeUntil c (a +:+ rest) = a.
Proof.
  intros Ha Hrest. induction a as [|x a IH]; simpl.
  - destruct Hrest as [->|[r ->]]; simpl; [done |].
    by rewrite Ascii.eqb_refl.
  - destruct Ha as [Hx Ha]. destruct (Ascii.eqb_spec x c); [done |].
    by rewrite IH.
Qed.

Lemma matchPath_Some (r id : string) :
  matchPath r = Some id ->
  exists rest, r = docsPath +:+ id +:+ rest /\ id <> "" /\ lacks "/" id
               /\ (rest = "" \/ exists r', rest = String "/" r').
Proof.
  unfold matchPath. destruct (stripPrefix docsPath r) as [t|] eqn:E; [| done].
  apply stripPrefix_Some in E as ->.
  destruct (isEmpty (takeUntil "/" t)) eqn:Hid; [done |]. intros [= <-].
  destruct (takeUntil_split "/" t) as (rest & Ht & Hrest).
  exists rest. split_and!.
  - by rewrite <- Ht.
  - by apply isEmpty_false.
  - apply takeUntil_lacks.
  - done.
Qed.

Lemma matchPath_form (id rest : string) :
  id <> "" -> lacks "/" id ->
  rest = "" \/ (exists r, rest = String "/" r) ->
  matchPath (docsPath +:+ id +:+ rest) = Some id.
Proof.
  intros Hne Hid Hrest. unfold matchPath.
  rewrite stripPrefix_app, takeUntil_app by done.
  apply isEmpty_false in Hne. by rewrite Hne.
Qed.

Lemma matchHere_Some (s id : string) :
  matchHere s = Some id ->
  exists sch rest,
    isScheme sch /\ s = sch +:+ docsPath +:+ id +:+ rest
    /\ id <> "" /\ lacks "/" id
    /\ (rest = "" \/ exists r', rest = String "/" r').
Proof.
  unfold matchHere. destruct (stripPrefix "http" s) as [r|] eqn:E; [| done].
  apply stripPrefix_Some in E as ->.
  assert (Hhttp : matchPath r = Some id ->
                  exists sch rest,
                    isScheme sch /\ "http" +:+ r = sch +:+ docsPath +:+ id +:+ rest
                    /\ id <> "" /\ lacks "/" id
                    /\ (rest = "" \/ exists r', rest = String "/" r')).
  { intros H. apply matchPath_Some in H as (rest & -> & ? & ? & ?).
    exists "http", rest. split_and!; try done. by left. }
  destruct r as [|c r']; [done |].
  destruct (Ascii.eqb_spec c "s") as [->|]; [| done].
  destruct (matchPath r') as [id'|] eqn:E'; [| done].
  intros [= ->]. apply matchPath_Some in E' as (rest & -> & ? & ? & ?).
  exists "https", rest. split_and!; try done. by right.
Qed.

Lemma matchHere_form (sch id rest : string) :
  isScheme sch -> id <> "" -> lacks "/" id ->
  rest = "" \/ (exists r, rest = String "/" r) ->
  matchHere (sch +:+ docsPath +:+ id +:+ rest) = Some id.
Proof.
  intros [->| ->] Hne Hid Hrest.
  - pose proof (matchPath_form id rest Hne Hid Hrest) as H.
    unfold matchHere. rewrite stripPrefix_app.
    unfold docsPath in *. simpl in *. done.
  - pose proof (matchPath_form id rest Hne Hid Hrest) as H.
    unfold matchHere.
    change ("https" +:+ docsPath +:+ id +:+ rest)
      with ("http" +:+ String "s" (docsPath +:+ id +:+ rest)).
    rewrite stripPrefix_app. cbv beta iota. by rewrite Ascii.eqb_refl, H.
Qed.

Lemma matchHere_occurs (sch rest : string) (c : ascii) :
  isScheme sch -> c <> "/"%char ->
  exists id, matchHere (sch +:+ docsPath +:+ String c rest) = Some id.
Proof.
  intros Hs Hc.
  destruct (takeUntil_split "/" (String c rest)) as (tl & Hsplit & Htl).
  exists (takeUntil "/" (String c rest)).
  rewrite Hsplit at 1. apply matchHere_form; try done.
  - simpl. by destruct (Ascii.eqb_spec c "/").
  - apply takeUntil_lacks.
Qed.

Lemma matchDocUrl_eq (s : string) :
  matchDocUrl s =
    match matchHere s with
    | Some id => Some id
    | None => match s with
              | "" => None
              | String _ r => matchDocUrl r
              end
    end.
Proof. by destruct s. Qed.

(** The leftmost occurrence decides, and it yields the run up to the next
    slash. *)
Lemma matchDocUrl_Some (u id : string) :
  matchDocUrl u = Some id ->
  exists pre sch rest,
    isScheme sch /\ u = pre +:+ sch +:+ docsPath +:+ id +:+ rest
    /\ id <> "" /\ lacks "/" id
    /\ (rest = "" \/ exists r', rest = String "/" r')
    /\ (forall pre', occursAt pre' u -> String.length pre <= String.length pre').
Proof.
  induction u as [|a u IH]; rewrite matchDocUrl_eq.
  - destruct (matchHere "") as [id'|] eqn:E; [| done].
    intros [= ->]. apply matchHere_Some in E as (sch & rest & ? & ? & ? & ? & ?).
    exists "", sch, rest. split_and!; try done. simpl. lia.
  - destruct (matchHere (String a u)) as [id'|] eqn:E.
    + intros [= ->].
      apply matchHere_Some in E as (sch & rest & ? & ? & ? & ? & ?).
      exists "", sch, rest. split_and!; try done. simpl. lia.
    + intros H.
      destruct (IH H) as (pre & sch & rest & ? & Heq & ? & ? & ? & Hmin).
      exists (String a pre), sch, rest. split_and!; try done.
      { rewrite Heq at 1. done. }
      intros pre' (sch' & c & rest' & Hs' & Hc & Hu).
      destruct pre' as [|b pre'];
        [ change (String a u = sch' +:+ docsPath +:+ String c rest') in Hu
        | change (String a u
                  = String b (pre' +:+ sch' +:+ docsPath +:+ String c rest'))
            in Hu ].
      * destruct (matchHere_occurs sch' rest' c Hs' Hc) as [id'' Hm].
        rewrite <- Hu in Hm. congruence.
      * injection Hu as -> Hu. simpl.
        assert (String.length pre <= String.length pre'); [| lia].
        apply Hmin. by exists sch', c, rest'.
Qed.

Lemma matchDocUrl_occurs (u : string) :
  hasDocUrl u -> exists id, matchDocUrl u = Some id.
Proof.
  intros (pre & sch & c & rest & Hs & Hc & ->).
  induction pre as [|a pre IH].
  - change ("" +:+ sch +:+ docsPath +:+ String c rest)
      with (sch +:+ docsPath +:+ String c rest).
    rewrite matchDocUrl_eq.
    destruct (matchHere_occurs sch rest c Hs Hc) as [id ->]. by exists id.
  - change (String a pre +:+ sch +:+ docsPath +:+ String c rest)
      with (String a (pre +:+ sch +:+ docsPath +:+ String c rest)).
    rewrite matchDocUrl_eq.
    destruct (matchHere _) as [id|]; [by exists id | apply IH].
Qed.

(** A string with a character that is not white space has a trimmed form
    that is not empty. *)
Lemma trim_nonwhite (pre r : string) (c : ascii) :
  isWhite c = false -> trim (pre +:+ String c r) <> "".
Proof.
  intros Hc. unfold trim.
  assert (exists x r', trimStart (pre +:+ String c r) = String x r'
                       /\ isWhite x = false) as (x & r' & -> & Hx).
  { induction pre as [|a pre IH]; simpl.
    - rewrite Hc. by exists c, r.
    - destruct (isWhite a) eqn:Ha; [done |]. by eexists _, _. }
  by destruct (trimEnd_head x r' Hx) as [r'' ->].
Qed.

Lemma hasDocUrl_trim (u : string) : hasDocUrl u -> trim u <> "".
Proof.
  intros (pre & sch & c & rest & [-> | ->] & _ & ->);
    by apply (trim_nonwhite pre _ "h").
Qed.

Lemma extractDocId_Ok (v : jsval) (id : string) :
  extractDocId v = Ok id ->
  exists u, v = JStr u /\ trim u <> "" /\ matchDocUrl u = Some id.
Proof.
  destruct v as [| | | |u| |]; try done. simpl.
  destruct (isEmpty (trim u)) eqn:E; [done |].
  destruct (matchDocUrl u) as [id'|] eqn:Em; [| done].
  intros [= ->]. exists u. split_and!; [done | by apply isEmpty_false | done].
Qed.

(** C3, as it stands, fails on strings that are not of the form
    [scheme://docs.google.com/document/d/ID/...] and are not refused: the
    pattern is searched for anywhere in the string, and no slash has to
    follow the identifier. *)
Lemma extractDocId_accepts_other_forms :
  let embedded := "view-source:https://docs.google.com/document/d/ABC/edit" in
  let bare := "https://docs.google.com/document/d/ABC" in
  (forall id, ~ docUrlForm embedded id)
  /\ extractDocId (JStr embedded) = Ok "ABC"
  /\ (forall id, ~ docUrlForm bare id)
  /\ extractDocId (JStr bare) = Ok "ABC".
Proof.
  split_and!.
  - intros id (sch & rest & [-> | ->] & _ & _ & H); discriminate H.
  - reflexivity.
  - intros id (sch & rest & [-> | ->] & _ & Hid & H); [discriminate H |].
    unfold docsPath in H. simpl in H.
    repeat match type of H with
           | String _ _ = String _ _ => injection H as _ H
           end.
    repeat (destruct id as [|? id]; simpl in H;
            [discriminate H | injection H as <- H]).
    destruct id; discriminate H.
  - reflexivity.
Qed.

(** C3 (amended): on a string of the form
    [scheme://docs.google.com/document/d/ID/...], with the scheme [http] or
    [https] and a non-empty [ID], [extractDocId] returns exactly [ID].  In
    general it searches its argument for the pattern: it succeeds exactly
    on the strings in which a scheme, [://docs.google.com/document/d/] and
    a character other than a slash occur somewhere, and returns the
    non-empty run without a slash that follows the leftmost occurrence, up
    to the next slash or the end of the string.  On every other value (a
    string without an occurrence, among them the empty and the blank ones,
    or a value that is not a string) it fails with one of its two
    invalid-input errors. *)
Theorem extractDocId_spec :
  (forall (u id : string),
      docUrlForm u id -> extractDocId (JStr u) = Ok id)
  /\ (forall (v : jsval) (id : string),
         extractDocId v = Ok id ->
         exists u pre sch rest,
           v = JStr u /\ isScheme sch
           /\ u = pre +:+ sch +:+ docsPath +:+ id +:+ rest
           /\ id <> "" /\ lacks "/" id
           /\ (rest = "" \/ exists r, rest = String "/" r)
           /\ (forall pre', occursAt pre' u ->
                            String.length pre <= String.length pre'))
  /\ (forall (v : jsval),
         (exists e, extractDocId v = Err e)
         <-> (forall u, v = JStr u -> ~ hasDocUrl u))
  /\ (forall (v : jsval) (e : jsError),
         extractDocId v = Err e ->
         e = newError invalidUrl \/ e = newError invalidDocsUrl).
Proof.
  split_and!.
  - intros u id (sch & rest & Hs & Hne & Hid & ->). unfold extractDocId.
    assert (Ht : trim (sch +:+ docsPath +:+ id +:+ "/" +:+ rest) <> "").
    { destruct Hs as [-> | ->]; by apply (trim_nonwhite "" _ "h"). }
    apply isEmpty_false in Ht. rewrite Ht, matchDocUrl_eq.
    rewrite (matchHere_form sch id ("/" +:+ rest)); try done.
    right. by exists rest.
  - intros v id H. apply extractDocId_Ok in H as (u & -> & _ & Hm).
    apply matchDocUrl_Some in Hm
      as (pre & sch & rest & ? & ? & ? & ? & ? & ?).
    by exists u, pre, sch, rest.
  - intros v. split.
    + intros [e He] u -> Hocc. unfold extractDocId in He.
      pose proof (hasDocUrl_trim u Hocc) as Ht. apply isEmpty_false in Ht.
      rewrite Ht in He.
      destruct (matchDocUrl_occurs u Hocc) as [id Hid]. by rewrite Hid in He.
    + intros Hno. destruct (extractDocId v) as [id|e] eqn:E; [| by exists e].
      apply extractDocId_Ok in E as (u & -> & _ & Hm).
      apply matchDocUrl_Some in Hm
        as (pre & sch & rest & Hs & -> & Hne & Hl & _).
      destruct (Hno _ eq_refl). destruct id as [|c id]; [done |].
      destruct Hl as [Hc _]. by exists pre, sch, c, (id +:+ rest).
  - intros v e. destruct v as [| | | |u| |]; unfold extractDocId;
      try (intros [= <-]; by left).
    destruct (isEmpty (trim u)); [intros [= <-]; by left |].
    destruct (matchDocUrl u); [done |]. intros [= <-]. by right.
Qed.

Lemma extractDocId_spec_witness :
  extractDocId (JStr "https://docs.google.com/document/d/1ABC123XYZ/edit")
    = Ok "1ABC123XYZ"
  /\ (exists e, extractDocId (JStr "https://example.com/document/d/1") = Err e
                /\ (e = newError invalidUrl \/ e = newError invalidDocsUrl)).
Proof.
  destruct extractDocId_spec as (Hform & _ & _ & Herr). split.
  - apply Hform. exists "https", "edit".
    split_and!; [by right | discriminate | | reflexivity].
    simpl. repeat split; discriminate.
  - exists (newError invalidDocsUrl). split; [reflexivity |].
    apply (Herr (JStr "https://example.com/document/d/1")). reflexivity.
Defined.

End DocId.

(** ** downloadDoc *)

Section Download.

Lemma catchDownload_plain (m : string) :
  includes "unauthorized access" (toLowerCase m) = false ->
  catchDownload (newError m) = newError (failedDownload +:+ m).
Proof.
  intros H. unfold catchDownload. simpl. by rewrite H, andb_false_r.
Qed.

Lemma validateStatus_range (n : Z) :
  validateStatus n = true -> (200 <= n < 400)%Z.
Proof. unfold validateStatus. lia. Qed.

(** The failures of [catchDownload]. *)
Lemma catchDownload_cases (err : jsError) :
  catchDownload err = newError notFound
  \/ catchDownload err = newError (failedDownload +:+ message err)
  \/ (catchDownload err = err
      /\ includes "unauthorized access" (toLowerCase (message err)) = true).
Proof.
  unfold catchDownload.
  destruct (match response err with Some r => _ | None => _ end); [by left |].
  destruct (isEmpty (message err)); simpl; [right; by left |].
  destruct (includes _ _); [right; by right | right; by left].
Qed.

(** C4, as it stands, fails twice.  A reply of another content type fails
    with the generic message that embeds the "Unexpected response" text:
    the error is of two of the four kinds at once, and its message is not
    the "Unexpected response" one.  A call with a string that holds no
    document identifier fails with an error of none of the four kinds. *)
Lemma downloadDoc_outcomes_overlap :
  let html := Reply {| status := 200; contentType := Some "text/html" |} in
  let e1 := newError (failedDownload +:+ unexpected) in
  let e2 := newError invalidDocsUrl in
  downloadDoc (answering html) docUrl = Err e1
  /\ isUnexpectedError e1 = true /\ isGenericError e1 = true
  /\ message e1 <> unexpected
  /\ downloadDoc publicDoc (JStr "https://example.com/") = Err e2
  /\ isUnauthorizedError e2 = false /\ isUnexpectedError e2 = false
  /\ isNotFoundError e2 = false /\ isGenericError e2 = false.
Proof. vm_compute. repeat split; discriminate. Qed.

(** C4 (amended): a call of [downloadDoc] fails
    - with the error of [extractDocId], before any request, when no
      identifier can be extracted;
    - with the generic "Failed to download" error that embeds the
      "Unexpected response ... not publicly accessible" message, when the
      client accepts the reply and its content type is not the DOCX one;
    - with "Document not found", when the reply has status 404, which the
      client raises as an error;
    - with the generic "Failed to download" error that embeds the original
      message, when there is no reply and the message of the failure does
      not contain "unauthorized access".
    Every failure is the error of [extractDocId], the failure to create
    the temporary directory, "Document not found", a generic "Failed to
    download" error, or a rethrown error whose message contains
    "unauthorized access". *)
Theorem downloadDoc_failures :
  (forall (w : world) (url : jsval) (e : jsError),
      extractDocId url = Err e -> downloadDoc w url = Err e)
  /\ (forall (w : world) (url : jsval) (id dir : string) (r : httpResponse),
         extractDocId url = Ok id -> mkdtempSync w = Ok dir ->
         httpGet w (buildExportUrl id) = Reply r ->
         (validateStatus (status r) = true -> isDocx r = false ->
          downloadDoc w url = Err (newError (failedDownload +:+ unexpected)))
         /\ (status r = 404%Z ->
             downloadDoc w url = Err (newError notFound)))
  /\ (forall (w : world) (url : jsval) (id dir reason : string),
         extractDocId url = Ok id -> mkdtempSync w = Ok dir ->
         httpGet w (buildExportUrl id) = NoReply reason ->
         includes "unauthorized access" (toLowerCase reason) = false ->
         downloadDoc w url = Err (newError (failedDownload +:+ reason)))
  /\ (forall (w : world) (url : jsval) (e : jsError),
         downloadDoc w url = Err e ->
         extractDocId url = Err e
         \/ mkdtempSync w = Err (message e)
         \/ e = newError notFound
         \/ (exists m, e = newError (failedDownload +:+ m))
         \/ includes "unauthorized access" (toLowerCase (message e)) = true).
Proof.
  split_and!.
  - intros w url e H. unfold downloadDoc. by rewrite H.
  - intros w url id dir r Hid Hdir Hget. split.
    + intros Hok Hdocx. unfold downloadDoc, tryDownload.
      rewrite Hid, Hdir, Hget. simpl. rewrite Hok.
      apply validateStatus_range in Hok.
      replace (status r =? 401)%Z with false by lia.
      replace (status r =? 403)%Z with false by lia.
      simpl. rewrite Hdocx. simpl.
      by rewrite catchDownload_plain.
    + intros H404. unfold downloadDoc, tryDownload.
      rewrite Hid, Hdir, Hget. simpl. rewrite H404. simpl.
      unfold catchDownload. simpl. by rewrite H404.
  - intros w url id dir reason Hid Hdir Hget Hno. unfold downloadDoc, tryDownload.
    rewrite Hid, Hdir, Hget. simpl. by rewrite catchDownload_plain.
  - intros w url e. unfold downloadDoc.
    destruct (extractDocId url) as [id|e0]; [| intros [= ->]; by left].
    destruct (mkdtempSync w) as [dir|m]; [| intros [= <-]; right; by left].
    destruct (tryDownload w _ _) as [path|err]; [done |]. intros [= <-].
    destruct (catchDownload_cases err) as [-> | [-> | [-> Hc]]].
    + right; right; by left.
    + right; right; right; left. by eexists.
    + by repeat right.
Qed.

Lemma downloadDoc_failures_witness :
  downloadDoc publicDoc (JStr "   ") = Err (newError invalidUrl)
  /\ downloadDoc
       (answering (Reply {| status := 302; contentType := Some "text/html" |}))
       docUrl
     = Err (newError (failedDownload +:+ unexpected))
  /\ downloadDoc (answering (Reply {| status := 404; contentType := None |}))
                 docUrl
     = Err (newError notFound)
  /\ downloadDoc (answering (NoReply "socket hang up")) docUrl
     = Err (newError (failedDownload +:+ "socket hang up"))
  /\ (extractDocId docUrl = Err (newError notFound)
      \/ mkdtempSync (answering (NoReply "x")) = Err (message (newError notFound))
      \/ newError notFound = newError notFound
      \/ (exists m, newError notFound = newError (failedDownload +:+ m))
      \/ includes "unauthorized access"
                  (toLowerCase (message (newError notFound))) = true).
Proof.
  destruct downloadDoc_failures as (Hurl & Hreply & Hnone & Hall).
  split_and!.
  - apply Hurl. reflexivity.
  - refine (proj1 (Hreply _ docUrl "abc" "/tmp/gdoc-parser-a1" _ _ _ _) _ _);
      reflexivity.
  - refine (proj2 (Hreply _ docUrl "abc" "/tmp/gdoc-parser-a1" _ _ _ _) _);
      reflexivity.
  - apply (Hnone _ docUrl "abc" "/tmp/gdoc-parser-a1"); reflexivity.
  - apply (Hall (answering (Reply {| status := 404; contentType := None |}))
                docUrl).
    reflexivity.
Defined.

(** The branch of [tryDownload] for the statuses 401 and 403 is never
    taken: the client accepts the statuses from 200 to 399 only, so a reply
    with one of these two comes back as an error of the client and ends as
    a generic failure. *)
Lemma unauthorized_reply_is_generic :
  downloadDoc (answering (Reply {| status := 401; contentType := None |}))
              docUrl
  = Err (newError (failedDownload +:+ "Request failed with status code 401"))
  /\ downloadDoc (answering (Reply {| status := 403; contentType := None |}))
                 docUrl
     = Err (newError (failedDownload +:+ "Request failed with status code 403")).
Proof. split; reflexivity. Qed.

End Download.

(** ** The handler of POST /parse-doc *)

Section ParseDoc.

(** C5, as it stands, fails on [keywords] that are present, not an array
    and falsy ([false], the empty string): the handler takes them for
    absent and goes on; with a public document the answer is 200. *)
Lemma falsy_keywords_accepted :
  code (parseDoc publicDoc {| url := docUrl; keywords := JBool false |}) = 200%Z
  /\ isArray (JBool false) = false
  /\ code (parseDoc publicDoc {| url := docUrl; keywords := JStr "" |}) = 200%Z
  /\ isArray (JStr "") = false.
Proof. vm_compute. done. Qed.

(** C5 (amended): a [url] that is missing, empty or not a string yields
    400; [keywords] that are truthy and not an array yield 400 (falsy ones
    count as absent); and when the processing fails the status follows the
    text of the message, tried in this order: "Unauthorized access" or "not
    publicly accessible" gives 403, "Document not found" gives 404,
    "Invalid Google Docs URL" gives 400, anything else 500.  The body of
    every answer that is not a 200 is [{error: message}]. *)
Theorem parseDoc_statuses :
  (forall (w : world) (req : request),
      truthy (url req) = false \/ isString (url req) = false ->
      parseDoc w req = fail 400 missingUrl)
  /\ (forall (w : world) (req : request),
         truthy (url req) = true -> isString (url req) = true ->
         truthy (keywords req) = true -> isArray (keywords req) = false ->
         parseDoc w req = fail 400 badKeywords)
  /\ (forall (w : world) (req : request) (err : jsError),
         truthy (url req) = true -> isString (url req) = true ->
         truthy (keywords req) = false \/ isArray (keywords req) = true ->
         processGoogleDoc w (url req) (orEmptyArray (keywords req)) = Err err ->
         let msg :=
           if isEmpty (message err) then "Unknown error" else message err in
         body (parseDoc w req) = ErrorJson msg
         /\ (includes "Unauthorized access" msg = true
             \/ includes "not publicly accessible" msg = true ->
             code (parseDoc w req) = 403%Z)
         /\ (includes "Unauthorized access" msg = false ->
             includes "not publicly accessible" msg = false ->
             (includes "Document not found" msg = true ->
              code (parseDoc w req) = 404%Z)
             /\ (includes "Document not found" msg = false ->
                 (includes "Invalid Google Docs URL" msg = true ->
                  code (parseDoc w req) = 400%Z)
                 /\ (includes "Invalid Google Docs URL" msg = false ->
                     code (parseDoc w req) = 500%Z))))
  /\ (forall (w : world) (req : request),
         code (parseDoc w req) <> 200%Z ->
         exists msg, body (parseDoc w req) = ErrorJson msg).
Proof.
  split_and!.
  - intros w req H. unfold parseDoc.
    by destruct H as [-> | ->]; rewrite ?orb_true_r.
  - intros w req Ht Hs Hk Ha. unfold parseDoc. by rewrite Ht, Hs, Hk, Ha.
  - intros w req err Ht Hs Hk Hp msg. unfold parseDoc.
    rewrite Ht, Hs, Hp. simpl.
    replace (truthy (keywords req) && negb (isArray (keywords req)))
      with false by (by destruct Hk as [-> | ->]; rewrite ?andb_false_r).
    unfold errorReply. fold msg.
    destruct (includes "Unauthorized access" msg);
      destruct (includes "not publicly accessible" msg);
      destruct (includes "Document not found" msg);
      destruct (includes "Invalid Google Docs URL" msg); simpl;
      intuition congruence.
  - intros w req. unfold parseDoc.
    destruct (_ || _); [by eexists |].
    destruct (_ && _); [by eexists |].
    destruct (processGoogleDoc _ _ _) as [[rawHtml sd]|err]; [done |].
    intros _. unfold errorReply. repeat case_match; by eexists.
Qed.

Lemma parseDoc_statuses_witness :
  parseDoc publicDoc {| url := JNum 123; keywords := JUndefined |}
    = fail 400 missingUrl
  /\ parseDoc publicDoc {| url := docUrl; keywords := JStr "Total" |}
     = fail 400 badKeywords
  /\ code (parseDoc
             (answering (Reply {| status := 404; contentType := None |}))
             {| url := docUrl; keywords := JUndefined |}) = 404%Z
  /\ (exists msg,
         body (parseDoc (answering (NoReply "timeout"))
                        {| url := docUrl; keywords := JUndefined |})
         = ErrorJson msg).
Proof.
  destruct parseDoc_statuses as (Hurl & Hkw & Herr & Hbody). split_and!.
  - apply Hurl. by right.
  - apply Hkw; reflexivity.
  - refine (proj1 (proj2 (proj2
      (Herr (answering (Reply {| status := 404; contentType := None |}))
            {| url := docUrl; keywords := JUndefined |}
            (newError notFound) _ _ _ _)) _ _) _); try reflexivity.
    by left.
  - apply Hbody. vm_compute. discriminate.
Defined.

(** A reply of another content type, which is what a private document
    gives, carries the text "may not be publicly accessible": none of the
    texts that the handler looks for occurs in it, and the answer is 500. *)
Lemma html_reply_answers_500 :
  parseDoc (answering (Reply {| status := 200; contentType := Some "text/html" |}))
           {| url := docUrl; keywords := JUndefined |}
  = fail 500 (failedDownload +:+ unexpected).
Proof. reflexivity. Qed.

(** C6: a request whose [url] is a blank string fails in [extractDocId]
    with its invalid-input error "Invalid URL: ..."; the handler looks for
    "Invalid Google Docs URL" only, and answers 500. *)
Theorem blank_url_answers_500 :
  forall (w : world),
    extractDocId (JStr "   ") = Err (newError invalidUrl)
    /\ parseDoc w {| url := JStr "   "; keywords := JUndefined |}
       = fail 500 invalidUrl.
Proof. intros w. split; reflexivity. Qed.

End ParseDoc.

(** * Further properties of the code *)

(** ** normalizeText and the normalized keywords *)

Section Normalization.

Lemma lowerChar_white (c : ascii) : isWhite (lowerChar c) = isWhite c.
Proof. destruct c as [[] [] [] [] [] [] [] []]; reflexivity. Qed.

Lemma lowerChar_idem (c : ascii) : lowerChar (lowerChar c) = lowerChar c.
Proof. destruct c as [[] [] [] [] [] [] [] []]; reflexivity. Qed.

Lemma toLowerCase_idem (s : string) :
  toLowerCase (toLowerCase s) = toLowerCase s.
Proof.
  induction s as [|c s IH]; simpl; [done |]. by rewrite lowerChar_idem, IH.
Qed.

Lemma trimStart_toLowerCase (s : string) :
  trimStart (toLowerCase s) = toLowerCase (trimStart s).
Proof.
  induction s as [|c s IH]; simpl; [done |].
  rewrite lowerChar_white. by destruct (isWhite c).
Qed.

Lemma trimEnd_toLowerCase (s : string) :
  trimEnd (toLowerCase s) = toLowerCase (trimEnd s).
Proof.
  induction s as [|c s IH]; simpl; [done |].
  rewrite IH, lowerChar_white.
  destruct (trimEnd s); simpl; [by destruct (isWhite c) | done].
Qed.

Lemma trim_toLowerCase (s : string) :
  trim (toLowerCase s) = toLowerCase (trim s).
Proof. unfold trim. by rewrite trimStart_toLowerCase, trimEnd_toLowerCase. Qed.

Lemma collapseFrom_toLowerCase (b : bool) (s : string) :
  collapseFrom b (toLowerCase s) = toLowerCase (collapseFrom b s).
Proof.
  revert b. induction s as [|c s IH]; intros b; simpl; [done |].
  rewrite lowerChar_white.
  destruct (isWhite c); [destruct b |]; simpl; by rewrite IH.
Qed.

Lemma collapsed_weaken (s : string) :
  collapsed true s = true -> collapsed false s = true.
Proof.
  destruct s as [|c r]; simpl; [done |].
  destruct (isWhite c); [| done]. by rewrite andb_false_r.
Qed.

Lemma collapseFrom_collapsed (b : bool) (s : string) :
  collapsed b (collapseFrom b s) = true.
Proof.
  revert b. induction s as [|c s IH]; intros b; simpl; [done |].
  destruct (isWhite c) eqn:Hc.
  - destruct b; [apply IH |]. simpl. apply IH.
  - simpl. rewrite Hc. apply IH.
Qed.

Lemma collapsed_fixed (b : bool) (s : string) :
  collapsed b s = true -> collapseFrom b s = s.
Proof.
  revert b. induction s as [|c s IH]; intros b; simpl; [done |].
  destruct (isWhite c).
  - intros H. apply andb_prop in H as [H Hr]. apply andb_prop in H as [Hc Hb].
    apply Ascii.eqb_eq in Hc as ->. destruct b; [done |].
    by rewrite (IH true Hr).
  - intros H. by rewrite (IH false H).
Qed.

Lemma collapsed_tail (b : bool) (c : ascii) (s : string) :
  collapsed b (String c s) = true -> collapsed false s = true.
Proof.
  simpl. destruct (isWhite c); [| done].
  intros H. apply andb_prop in H as [_ Hr]. by apply collapsed_weaken.
Qed.

Lemma trimStart_collapsed (b : bool) (s : string) :
  collapsed b s = true -> collapsed false (trimStart s) = true.
Proof.
  revert b. induction s as [|c s IH]; intros b H; [done |].
  simpl. destruct (isWhite c) eqn:Hc.
  - eapply IH. by eapply collapsed_tail.
  - simpl in *. by rewrite Hc in *.
Qed.

Lemma trimEnd_collapsed (b : bool) (s : string) :
  collapsed b s = true -> collapsed b (trimEnd s) = true.
Proof.
  revert b. induction s as [|c s IH]; intros b H; [done |].
  simpl in *. destruct (isWhite c) eqn:Hc.
  - apply andb_prop in H as [H Hr]. apply (IH true) in Hr.
    destruct (trimEnd s) as [|d r'] eqn:E; [done |].
    cbn [collapsed]. rewrite Hc, H. done.
  - apply (IH false) in H.
    destruct (trimEnd s) as [|d r'] eqn:E; simpl; by rewrite Hc.
Qed.

(** Collapsing the white space of an already collapsed and trimmed text
    changes nothing. *)
Lemma collapseWhite_trim_collapseWhite (s : string) :
  collapseWhite (trim (collapseWhite s)) = trim (collapseWhite s).
Proof.
  apply collapsed_fixed. unfold trim.
  apply trimEnd_collapsed, (trimStart_collapsed false), collapseFrom_collapsed.
Qed.

Lemma collapseWhite_normalizeText (s : string) :
  collapseWhite (normalizeText s) = normalizeText s.
Proof.
  unfold normalizeText, collapseWhite at 1.
  rewrite collapseFrom_toLowerCase. fold (collapseWhite (trim (collapseWhite s))).
  by rewrite collapseWhite_trim_collapseWhite.
Qed.

(** X1: on texts of code units below U+0100, [normalizeText] is
    idempotent and blind to letter case: applying it twice, or to the
    lowercased text, gives what applying it once gives. *)
Theorem normalizeText_idempotent :
  forall (s : string),
    normalizeText (normalizeText s) = normalizeText s
    /\ normalizeText (toLowerCase s) = normalizeText s.
Proof.
  intros s. split.
  - rewrite <- (collapseWhite_normalizeText s) at 2.
    unfold normalizeText at 1.
    rewrite collapseWhite_normalizeText. unfold normalizeText.
    by rewrite trim_toLowerCase, trim_idem, toLowerCase_idem.
  - unfold normalizeText, collapseWhite.
    by rewrite collapseFrom_toLowerCase, trim_toLowerCase, toLowerCase_idem.
Qed.

(** X2: every keyword that the filter keeps has a normalized form that is
    not empty, has no white space at its ends, is in lower case, and is the
    lowercased trimmed original; the kept keywords are the non-blank
    strings of the array, in its order. *)
Theorem normalizedKeywords_invariant :
  forall (keywords : list jsval),
    (forall kw, kw ∈ normalizedKeywords keywords ->
                normalized kw <> ""
                /\ trim (normalized kw) = normalized kw
                /\ toLowerCase (normalized kw) = normalized kw
                /\ normalized kw = toLowerCase (trim (original kw))
                /\ JStr (original kw) ∈ keywords)
    /\ (forall k, JStr k ∈ keywords -> trim k <> "" ->
                  exists kw, kw ∈ normalizedKeywords keywords
                             /\ original kw = k)
    /\ (forall ks1 ks2,
           normalizedKeywords (ks1 ++ ks2)
           = normalizedKeywords ks1 ++ normalizedKeywords ks2).
Proof.
  intros keywords. split_and!.
  - intros kw Hkw.
    destruct (normalizedKeywords_elem _ _ Hkw) as (k & Hin & Hne & ->). simpl.
    rewrite trim_toLowerCase. split_and!.
    + destruct (trim k); [done | discriminate].
    + by rewrite <- trim_toLowerCase, trim_idem, trim_toLowerCase.
    + apply toLowerCase_idem.
    + done.
    + done.
  - intros k Hin Hne.
    exists {| original := k; normalized := trim (toLowerCase k) |}.
    split; [| reflexivity]. unfold normalizedKeywords. apply list_elem_of_omap.
    exists (JStr k). split; [done |]. simpl.
    apply isEmpty_false in Hne. by rewrite Hne.
  - intros ks1 ks2. unfold normalizedKeywords. apply omap_app.
Qed.

Lemma normalizedKeywords_invariant_witness :
  normalized {| original := " Total "; normalized := "total" |} <> ""
  /\ (exists kw, kw ∈ normalizedKeywords [JNum 1; JStr " "; JStr " Total "]
                 /\ original kw = " Total ").
Proof.
  destruct (normalizedKeywords_invariant [JNum 1; JStr " "; JStr " Total "])
    as (Hinv & Hkept & _). split.
  - apply Hinv. vm_compute. apply list_elem_of_here.
  - apply Hkept.
    + do 2 apply list_elem_of_further. apply list_elem_of_here.
    + vm_compute. discriminate.
Defined.

End Normalization.

(** ** The extraction as a whole *)

Section Extraction.

Lemma normalizedKeywords_nil (keywords : list jsval) :
  (forall k, JStr k ∈ keywords -> trim k = "") ->
  normalizedKeywords keywords = [].
Proof.
  intros Hblank. destruct (normalizedKeywords keywords) as [|kw l] eqn:E; [done |].
  assert (Hkw : kw ∈ normalizedKeywords keywords)
    by (rewrite E; apply list_elem_of_here).
  destruct (normalizedKeywords_elem _ _ Hkw) as (k & Hin & Hne & _).
  by destruct Hne, (Hblank k Hin).
Qed.

Lemma firstPass_no_keywords (es : list node) (sd : gmap string string) :
  firstPass [] es sd = sd.
Proof.
  revert sd. induction es as [|e es IH]; intros sd; [done |].
  rewrite firstPass_cons, IH. unfold inlineElem. by destruct (isEmpty _).
Qed.

Lemma secondPass_no_keywords (es : list node) (sd : gmap string string) :
  secondPass [] es {| structuredData := sd; pendingLabel := None |}
  = {| structuredData := sd; pendingLabel := None |}.
Proof.
  induction es as [|e es IH]; [done |].
  rewrite secondPass_cons. unfold labelElem. simpl.
  by destruct (isEmpty _).
Qed.

(** X3: when no supplied keyword is a string with something other than
    white space in it (among them the empty array), the extraction returns
    the empty mapping, whatever the document. *)
Theorem no_usable_keyword_empty_result :
  forall (load : string -> list node) (html : string) (keywords : list jsval),
    (forall k, JStr k ∈ keywords -> trim k = "") ->
    extractStructuredData load (JStr html) (JArr keywords) = Ok ∅.
Proof.
  intros load html keywords Hblank. unfold extractStructuredData, extractFrom.
  rewrite (normalizedKeywords_nil _ Hblank).
  by rewrite firstPass_no_keywords, secondPass_no_keywords.
Qed.

Lemma no_usable_keyword_empty_result_witness :
  extractStructuredData (fun _ => page [Elem "p" [Text "Total: 42"]])
    (JStr "<p>Total: 42</p>") (JArr [JStr ""; JNum 7; JStr "  "; JNull])
  = Ok ∅.
Proof.
  apply no_usable_keyword_empty_result. intros k Hk.
  repeat (apply elem_of_cons in Hk as [Hk|Hk];
          [try discriminate Hk; by injection Hk as -> |]).
  by apply elem_of_nil in Hk.
Defined.

Lemma inlineValue_normalized (rawText : string) (k1 k2 : keyword) :
  normalized k1 = normalized k2 ->
  inlineValue rawText k1 = inlineValue rawText k2.
Proof. intros H. unfold inlineValue. by rewrite H. Qed.

Lemma firstPass_lookup_normalized (ks1 ks2 : list jsval) (k1 k2 : keyword)
    (es : list node) (sd1 sd2 : gmap string string) :
  k1 ∈ normalizedKeywords ks1 -> k2 ∈ normalizedKeywords ks2 ->
  original k1 <> "__proto__" -> original k2 <> "__proto__" ->
  normalized k1 = normalized k2 ->
  sd1 !! original k1 = sd2 !! original k2 ->
  firstPass (normalizedKeywords ks1) es sd1 !! original k1
  = firstPass (normalizedKeywords ks2) es sd2 !! original k2.
Proof.
  intros H1 H2 Hp1 Hp2 Hn. revert sd1 sd2.
  induction es as [|e es IH]; intros sd1 sd2 Hsd; [done |].
  rewrite !firstPass_cons. apply IH.
  rewrite !inlineElem_lookup by done.
  by rewrite (inlineValue_normalized _ k1 k2 Hn), Hsd.
Qed.

(** X4: what the first pass records for a keyword other than [__proto__]
    depends on the document and on the keyword's normalized form only: not
    on the other keywords of the array nor on their order, and two such
    keywords that differ in letter case or in outer white space only get
    the same value.  (Under [__proto__] itself nothing is ever recorded,
    whatever its variants get.) *)
Theorem inline_value_by_normalized_form :
  forall (ks1 ks2 : list jsval) (k1 k2 : keyword) (doc : list node),
    k1 ∈ normalizedKeywords ks1 -> k2 ∈ normalizedKeywords ks2 ->
    original k1 <> "__proto__" -> original k2 <> "__proto__" ->
    normalized k1 = normalized k2 ->
    inlineWrites doc (normalizedKeywords ks1) !! original k1
    = inlineWrites doc (normalizedKeywords ks2) !! original k2.
Proof.
  intros ks1 ks2 k1 k2 doc H1 H2 Hp1 Hp2 Hn. unfold inlineWrites.
  by apply firstPass_lookup_normalized.
Qed.

Lemma inline_value_by_normalized_form_witness :
  inlineWrites (page [Elem "p" [Text "Name: Ann"]])
               (normalizedKeywords [JStr "Name"; JStr "Age"]) !! "Name"
  = inlineWrites (page [Elem "p" [Text "Name: Ann"]])
                 (normalizedKeywords [JStr " NAME "]) !! " NAME ".
Proof.
  apply (inline_value_by_normalized_form
           [JStr "Name"; JStr "Age"] [JStr " NAME "]
           {| original := "Name"; normalized := "name" |}
           {| original := " NAME "; normalized := "name" |}).
  - vm_compute. apply list_elem_of_here.
  - vm_compute. apply list_elem_of_here.
  - discriminate.
  - discriminate.
  - reflexivity.
Defined.

(** The keys that the second pass writes are originals of keywords that
    some element is the label of. *)
Lemma labelElem_keys (kws : list keyword) (Q : string -> Prop) (st : scan)
    (e : node) :
  (forall p, p ∈ kws -> isLabelFor p e -> Q (original p)) ->
  (forall key, is_Some (structuredData st !! key) -> Q key)
  /\ (forall p, pendingLabel st = Some p -> Q (original p)) ->
  (forall key, is_Some (structuredData (labelElem kws st e) !! key) -> Q key)
  /\ (forall p, pendingLabel (labelElem kws st e) = Some p -> Q (original p)).
Proof.
  intros Hlab [Hsd Hp]. unfold labelElem.
  destruct (isEmpty (trim (text e))) eqn:Hraw; [done |].
  apply isEmpty_false in Hraw.
  destruct (pendingLabel st) as [pending|] eqn:Epend.
  - destruct (String.eqb _ (normalized pending)); [by rewrite Epend |].
    destruct (isEmpty (valueText e (trim (text e)))); [by rewrite Epend |].
    simpl. split; [| done]. intros key [w Hw].
    apply lookup_setProperty_Some in Hw as [(Hk & _) | Hw];
      [subst key; by apply Hp | by apply Hsd].
  - simpl. split; [done |]. intros p Hfold.
    apply foldl_labelKeyword_Some in Hfold as (Hin & Hn & Hc).
    by apply Hlab.
Qed.

Lemma secondPass_keys (kws : list keyword) (Q : string -> Prop)
    (es : list node) (st : scan) :
  (forall p e, p ∈ kws -> e ∈ es -> isLabelFor p e -> Q (original p)) ->
  (forall key, is_Some (structuredData st !! key) -> Q key)
  /\ (forall p, pendingLabel st = Some p -> Q (original p)) ->
  forall key, is_Some (structuredData (secondPass kws es st) !! key) -> Q key.
Proof.
  revert st. induction es as [|e es IH]; intros st Hlab Hst; [by destruct Hst |].
  rewrite secondPass_cons. apply IH.
  - intros p x Hp Hx. apply Hlab; [done | by apply list_elem_of_further].
  - apply labelElem_keys; [| done].
    intros p Hp. apply Hlab; [done | apply list_elem_of_here].
Qed.

(** X5: a keyword whose normalized form is changed by collapsing white
    space (it holds a tab, a line break, a no-break space or two white
    characters in a row) is never taken for a label, not even by an element
    with literally that text: the second pass records nothing under it and
    its entry in the result is the one of the first pass. *)
Theorem irregular_keyword_never_labelled :
  forall (keywords : list jsval) (kw : keyword) (doc : list node),
    kw ∈ normalizedKeywords keywords ->
    collapseWhite (normalized kw) <> normalized kw ->
    (forall e, ~ isLabelFor kw e)
    /\ labelWrites doc (normalizedKeywords keywords) !! original kw = None
    /\ extractFrom doc (normalizedKeywords keywords) !! original kw
       = inlineWrites doc (normalizedKeywords keywords) !! original kw.
Proof.
  intros keywords kw doc Hkw Hirr.
  assert (Hno : forall e, ~ isLabelFor kw e).
  { intros e (_ & Hn & _). apply Hirr. rewrite <- Hn.
    apply collapseWhite_normalizeText. }
  assert (Hnone : labelWrites doc (normalizedKeywords keywords) !! original kw
                  = None).
  { destruct (labelWrites _ _ !! original kw) as [v|] eqn:E; [| done].
    exfalso.
    apply (secondPass_keys (normalizedKeywords keywords)
             (fun key => key <> original kw) (select selector doc)
             {| structuredData := ∅; pendingLabel := None |}) with (original kw).
    - intros p e Hp _ Hlab Ho.
      rewrite (normalizedKeywords_same _ _ _ Hp Hkw Ho) in Hlab.
      by apply (Hno e).
    - simpl. split; [| done]. intros key. rewrite lookup_empty.
      by intros [? ?].
    - unfold labelWrites in E. by rewrite E.
    - done. }
  split_and!; [done | done |].
  rewrite extractFrom_union, lookup_union, Hnone.
  by destruct (inlineWrites _ _ !! original kw).
Qed.

Lemma irregular_keyword_never_labelled_witness :
  extractFrom (page [Elem "h2" [Text "Product  title"];
                     Elem "p" [Text "Widget X"]])
              (normalizedKeywords [JStr "Product  title"]) !! "Product  title"
  = inlineWrites (page [Elem "h2" [Text "Product  title"];
                        Elem "p" [Text "Widget X"]])
                 (normalizedKeywords [JStr "Product  title"])
      !! "Product  title".
Proof.
  refine (proj2 (proj2 (irregular_keyword_never_labelled
            [JStr "Product  title"]
            {| original := "Product  title"; normalized := "product  title" |}
            _ _ _))).
  - vm_compute. apply list_elem_of_here.
  - vm_compute. discriminate.
Defined.

Lemma foldl_labelKeyword_split (rawText norm : string) (kw : keyword)
    (kws : list keyword) :
  foldl (labelKeyword rawText norm) None kws = Some kw ->
  includes ":" rawText = false /\ norm = normalized kw
  /\ exists earlier later,
       kws = earlier ++ kw :: later
       /\ forall k, k ∈ earlier -> normalized k <> normalized kw.
Proof.
  induction kws as [|k kws IH]; [done |].
  cbn [foldl labelKeyword].
  destruct (String.eqb_spec norm (normalized k)) as [E|E];
    [destruct (includes ":" rawText) eqn:Hc |]; cbn [andb negb].
  - intros H. destruct (IH H) as (Hc' & _). congruence.
  - rewrite foldl_labelKeyword_pending. intros [= <-].
    split_and!; [done | done |]. exists [], kws. split; [done |].
    intros x Hx. by apply elem_of_nil in Hx.
  - intros H. destruct (IH H) as (Hc & Hn & earlier & later & -> & Hall).
    split_and!; [done | done |]. exists (k :: earlier), later.
    split; [done |]. intros x Hx.
    apply elem_of_cons in Hx as [-> | Hx]; [congruence | by apply Hall].
Qed.

(** X12: how a label is detected.  With nothing pending, an element never
    changes the mapping, and it makes the keyword [kw] pending exactly when
    its trimmed text is not empty and holds no colon, its normalized text
    is the normalized form of [kw], and [kw] is the first keyword of the
    array with that normalized form. *)
Theorem label_detection :
  forall (kws : list keyword) (sd : gmap string string) (e : node),
    let st := labelElem kws {| structuredData := sd; pendingLabel := None |} e in
    structuredData st = sd
    /\ (forall kw,
           pendingLabel st = Some kw <->
           isLabelFor kw e
           /\ exists earlier later,
                kws = earlier ++ kw :: later
                /\ forall k, k ∈ earlier -> normalized k <> normalized kw).
Proof.
  intros kws sd e st. subst st. split.
  - unfold labelElem. simpl. by destruct (isEmpty _).
  - intros kw. split.
    + destruct (isEmpty (rawTextOf e)) eqn:Hraw.
      { unfold labelElem. fold (rawTextOf e). by rewrite Hraw. }
      apply isEmpty_false in Hraw. rewrite labelElem_label by done. simpl.
      intros H. apply foldl_labelKeyword_split in H as (Hc & Hn & Hsplit).
      by split.
    + intros ((Hraw & Hn & Hc) & earlier & later & -> & Hall).
      rewrite labelElem_label by done. simpl.
      rewrite Hn. by apply foldl_labelKeyword_first.
Qed.

End Extraction.

(** ** From the URL to the answer *)

Section Pipeline.

(** X6: the export URL built from an identifier is itself a document URL
    with that identifier: [extractDocId] applied to [buildExportUrl id]
    gives [id] back, for every non-empty identifier without a slash, and so
    for every identifier that [extractDocId] returns. *)
Theorem export_url_round_trip :
  (forall (id : string),
      id <> "" -> lacks "/" id ->
      extractDocId (JStr (buildExportUrl id)) = Ok id)
  /\ (forall (url : jsval) (id : string),
         extractDocId url = Ok id ->
         extractDocId (JStr (buildExportUrl id)) = Ok id).
Proof.
  assert (H : forall id, id <> "" -> lacks "/" id ->
                         extractDocId (JStr (buildExportUrl id)) = Ok id).
  { intros id Hne Hid. unfold extractDocId, buildExportUrl.
    pose proof (trim_nonwhite "" ("ttps://docs.google.com/document/d/"
                                    +:+ id +:+ "/export?format=docx") "h"
                              eq_refl) as Ht.
    apply isEmpty_false in Ht.
    change ("" +:+ String "h" ("ttps://docs.google.com/document/d/"
                                 +:+ id +:+ "/export?format=docx"))
      with ("https://docs.google.com/document/d/"
              +:+ id +:+ "/export?format=docx") in Ht.
    rewrite Ht, matchDocUrl_eq.
    change ("https://docs.google.com/document/d/"
              +:+ id +:+ "/export?format=docx")
      with ("https" +:+ docsPath +:+ id +:+ "/export?format=docx").
    rewrite matchHere_form; try done; [by right | right; by eexists]. }
  split; [done |].
  intros url id Hok. apply extractDocId_Ok in Hok as (u & _ & _ & Hm).
  apply matchDocUrl_Some in Hm as (_ & _ & _ & _ & _ & Hne & Hid & _).
  by apply H.
Qed.

Lemma export_url_round_trip_witness :
  extractDocId (JStr (buildExportUrl "1ABC123XYZ")) = Ok "1ABC123XYZ"
  /\ extractDocId (JStr (buildExportUrl "abc")) = Ok "abc".
Proof.
  destruct export_url_round_trip as [Hid Hurl]. split.
  - apply Hid; [discriminate |]. simpl. repeat split; discriminate.
  - apply (Hurl docUrl). reflexivity.
Defined.

Lemma docxPath_not_empty (dir id : string) : isEmpty (docxPath dir id) = false.
Proof. unfold docxPath. by destruct dir. Qed.

Lemma tryDownload_Ok (w : world) (exportUrl path p : string) :
  tryDownload w exportUrl path = Ok p <->
  exists r, httpGet w exportUrl = Reply r
            /\ validateStatus (status r) = true /\ isDocx r = true
            /\ writeFileSync w path = None /\ p = path.
Proof.
  unfold tryDownload, axiosGet. split.
  - destruct (httpGet w exportUrl) as [r|reason]; [| done].
    destruct (validateStatus (status r)) eqn:Hv; [| done].
    destruct (_ || _)%Z; [done |].
    destruct (isDocx r) eqn:Hd; [| done]. simpl.
    destruct (writeFileSync w path) eqn:Hw; [done |].
    intros [= <-]. by exists r.
  - intros (r & -> & Hv & Hd & Hw & ->). rewrite Hv.
    apply validateStatus_range in Hv.
    replace (status r =? 401)%Z with false by lia.
    replace (status r =? 403)%Z with false by lia.
    simpl. by rewrite Hd, Hw.
Qed.

(** X7: [downloadDoc] returns a path exactly when an identifier is
    extracted, the temporary directory is created, the reply has a status
    from 200 to 399 and a content type that contains the DOCX type, and the
    file is written; the path is then [<tempDir>/<id>.docx]. *)
Theorem downloadDoc_success :
  forall (w : world) (url : jsval) (path : string),
    downloadDoc w url = Ok path <->
    exists id dir r,
      extractDocId url = Ok id /\ mkdtempSync w = Ok dir
      /\ httpGet w (buildExportUrl id) = Reply r
      /\ (200 <= status r < 400)%Z /\ isDocx r = true
      /\ writeFileSync w (docxPath dir id) = None
      /\ path = docxPath dir id.
Proof.
  intros w url path. unfold downloadDoc. split.
  - destruct (extractDocId url) as [id|e]; [| done].
    destruct (mkdtempSync w) as [dir|m]; [| done].
    fold (docxPath dir id).
    destruct (tryDownload w _ _) as [p|err] eqn:E; [| done].
    intros [= <-]. apply tryDownload_Ok in E as (r & ? & Hv & ? & ? & ->).
    apply validateStatus_range in Hv. by exists id, dir, r.
  - intros (id & dir & r & -> & -> & Hget & Hv & Hd & Hw & ->).
    fold (docxPath dir id).
    assert (E : tryDownload w (buildExportUrl id) (docxPath dir id)
                = Ok (docxPath dir id)).
    { apply tryDownload_Ok. exists r. split_and!; try done.
      unfold validateStatus. lia. }
    by rewrite E.
Qed.

Lemma downloadDoc_success_witness :
  exists id dir r,
    extractDocId docUrl = Ok id /\ mkdtempSync publicDoc = Ok dir
    /\ httpGet publicDoc (buildExportUrl id) = Reply r
    /\ (200 <= status r < 400)%Z /\ isDocx r = true
    /\ writeFileSync publicDoc (docxPath dir id) = None
    /\ "/tmp/gdoc-parser-a1/abc.docx" = docxPath dir id.
Proof.
  apply (proj1 (downloadDoc_success publicDoc docUrl
                  "/tmp/gdoc-parser-a1/abc.docx")).
  reflexivity.
Defined.

(** With falsy or array [keywords] the extraction itself cannot fail. *)
Lemma extract_guarded (w : world) (html : string) (keywords : jsval) :
  truthy keywords = false \/ isArray keywords = true ->
  extractStructuredData (load w) (JStr html)
                        (orEmptyArray (orEmptyArray keywords))
  = Ok (extractFrom (load w html) (normalizedKeywords (keywordItems keywords))).
Proof.
  intros [H|H]; unfold orEmptyArray.
  - rewrite H. simpl. by destruct keywords.
  - destruct keywords; try done.
Qed.

(** X8: behind the guard of the handler ([keywords] falsy or an array) the
    extraction never fails: a failure of the processing is the failure of
    the download or, after a download, the failure of the conversion. *)
Theorem processing_fails_before_extraction :
  forall (w : world) (url keywords : jsval) (err : jsError),
    truthy keywords = false \/ isArray keywords = true ->
    processGoogleDoc w url (orEmptyArray keywords) = Err err ->
    downloadDoc w url = Err err
    \/ exists path, downloadDoc w url = Ok path
                    /\ convertToHtml w path = Err err.
Proof.
  intros w url keywords err Hk. unfold processGoogleDoc.
  destruct (downloadDoc w url) as [path|e]; [| intros [= ->]; by left].
  destruct (convertToHtml w path) as [html|e] eqn:E;
    [| intros [= ->]; right; by exists path].
  by rewrite extract_guarded.
Qed.

Lemma processing_fails_before_extraction_witness :
  downloadDoc (answering (NoReply "timeout")) docUrl
    = Err (newError (failedDownload +:+ "timeout"))
  \/ exists path, downloadDoc (answering (NoReply "timeout")) docUrl = Ok path
                  /\ convertToHtml (answering (NoReply "timeout")) path
                     = Err (newError (failedDownload +:+ "timeout")).
Proof.
  apply (processing_fails_before_extraction
           (answering (NoReply "timeout")) docUrl (JArr [JStr "Total"])).
  - by right.
  - reflexivity.
Defined.

(** X9: what a 200 answer carries: the HTML is the output of the converter
    for [<tempDir>/<id>.docx], returned as it is, and the structured data
    is the extraction of exactly that HTML with the items of [keywords]
    (none when [keywords] is falsy). *)
Theorem answer_content :
  forall (w : world) (req : request) (html : string)
         (sd : gmap string string),
    body (parseDoc w req) = ResultJson html sd ->
    code (parseDoc w req) = 200%Z
    /\ exists id dir,
         extractDocId (url req) = Ok id /\ mkdtempSync w = Ok dir
         /\ mammoth w (docxPath dir id) = Ok html
         /\ sd = extractFrom (load w html)
                   (normalizedKeywords (keywordItems (keywords req))).
Proof.
  intros w req html sd. unfold parseDoc.
  destruct (_ || _); [done |].
  destruct (truthy (keywords req) && negb (isArray (keywords req))) eqn:Hg;
    [done |].
  assert (Hk : truthy (keywords req) = false \/ isArray (keywords req) = true).
  { destruct (truthy (keywords req)); [right | by left].
    by destruct (isArray (keywords req)). }
  unfold processGoogleDoc.
  destruct (downloadDoc w (url req)) as [path|e] eqn:Ed;
    [| unfold errorReply; intros H; by repeat case_match].
  destruct (convertToHtml w path) as [rawHtml|e] eqn:Ec;
    [| unfold errorReply; intros H; by repeat case_match].
  rewrite extract_guarded by done. simpl. intros [= -> <-].
  split; [done |].
  apply downloadDoc_success in Ed as (id & dir & r & ? & ? & _ & _ & _ & _ & ->).
  exists id, dir. split_and!; try done.
  unfold convertToHtml in Ec. rewrite docxPath_not_empty in Ec.
  destruct (existsSync w _); [| done]. simpl in Ec.
  by destruct (mammoth w _) as [v|m]; [injection Ec as -> |].
Qed.

Lemma answer_content_witness :
  code (parseDoc publicDoc {| url := docUrl; keywords := JArr [JStr "Total"] |})
    = 200%Z
  /\ exists id dir,
       extractDocId docUrl = Ok id /\ mkdtempSync publicDoc = Ok dir
       /\ mammoth publicDoc (docxPath dir id) = Ok "<p>Total: 42</p>"
       /\ ({[ "Total" := "42" ]} : gmap string string)
          = extractFrom (load publicDoc "<p>Total: 42</p>")
              (normalizedKeywords (keywordItems (JArr [JStr "Total"]))).
Proof.
  apply (answer_content publicDoc
           {| url := docUrl; keywords := JArr [JStr "Total"] |}).
  vm_compute. reflexivity.
Defined.

(** X10: the handler answers with one of five statuses, and the body is a
    result exactly when the status is 200 (otherwise it is an error
    message). *)
Theorem answer_statuses :
  forall (w : world) (req : request),
    code (parseDoc w req) ∈ [200; 400; 403; 404; 500]%Z
    /\ (code (parseDoc w req) = 200%Z <->
        exists html sd, body (parseDoc w req) = ResultJson html sd).
Proof.
  intros w req. unfold parseDoc.
  destruct (_ || _); [split; [set_solver | split; [done | by intros (? & ? & ?)]] |].
  destruct (_ && _); [split; [set_solver | split; [done | by intros (? & ? & ?)]] |].
  destruct (processGoogleDoc _ _ _) as [[html sd]|err].
  - split; [set_solver |]. split; [by eexists _, _ | done].
  - unfold errorReply. repeat case_match; simpl;
      (split; [set_solver | split; [done | by intros (? & ? & ?)]]).
Qed.

Lemma toLowerCase_app (a b : string) :
  toLowerCase (a +:+ b) = toLowerCase a +:+ toLowerCase b.
Proof. induction a as [|x a IH]; simpl; [done | by rewrite IH]. Qed.

Lemma startsWith_mayStart (p a d : string) :
  startsWith p (a +:+ d) = true -> mayStart p a = true.
Proof.
  revert a. induction p as [|x p IH]; intros a; [done |].
  destruct a as [|y a]; [done |]. simpl.
  destruct (Ascii.eqb x y); [apply IH | done].
Qed.

Lemma indexOf_app_None (p a d : string) :
  noStartIn p a = true -> indexOf p d = None -> indexOf p (a +:+ d) = None.
Proof.
  intros Ha Hd. induction a as [|y a IH]; [done |].
  apply andb_prop in Ha as [Hm Ha].
  change (String y a +:+ d) with (String y (a +:+ d)).
  rewrite indexOf_eq.
  destruct (startsWith p (String y (a +:+ d))) eqn:E.
  - apply (startsWith_mayStart p (String y a) d) in E.
    by rewrite E in Hm.
  - by rewrite (IH Ha).
Qed.

Lemma indexOf_head_lacks (c : ascii) (p s : string) :
  lacks c s -> indexOf (String c p) s = None.
Proof.
  induction s as [|a s IH]; simpl; [done |].
  intros [Hne Hs]. destruct (Ascii.eqb_spec c a) as [->|]; [done |].
  by rewrite IH.
Qed.

(** A text that begins with [c] does not occur in [a +:+ d] when it cannot
    start inside [a] and [d] is free of [c]. *)
Lemma includes_app_false (c : ascii) (p a d : string) :
  noStartIn (String c p) a = true -> lacks c d ->
  includes (String c p) (a +:+ d) = false.
Proof.
  intros Ha Hd. unfold includes.
  by rewrite (indexOf_app_None _ _ _ Ha (indexOf_head_lacks c p d Hd)).
Qed.

Lemma isEmpty_app (a b : string) :
  isEmpty a = false -> isEmpty (a +:+ b) = false.
Proof. by destruct a. Qed.

(** The decimal numerals hold digits and a sign only. *)
Lemma uint_string_lacks (c : ascii) (u : Decimal.uint) :
  lacks c "0123456789-" -> lacks c (NilEmpty.string_of_uint u).
Proof.
  intros Hc. simpl in Hc. induction u; simpl; intuition.
Qed.

Lemma int_string_lacks (c : ascii) (n : Z) :
  lacks c "0123456789-" ->
  lacks c (NilEmpty.string_of_int (Z.to_int n)).
Proof.
  intros Hc. destruct (Z.to_int n) as [u|u]; simpl.
  - by apply uint_string_lacks.
  - split; [simpl in Hc; intuition | by apply uint_string_lacks].
Qed.

Lemma uint_string_lower (u : Decimal.uint) :
  toLowerCase (NilEmpty.string_of_uint u) = NilEmpty.string_of_uint u.
Proof.
  induction u; cbn [NilEmpty.string_of_uint toLowerCase]; [done | ..];
    by rewrite IHu.
Qed.

Lemma int_string_lower (n : Z) :
  toLowerCase (NilEmpty.string_of_int (Z.to_int n))
  = NilEmpty.string_of_int (Z.to_int n).
Proof.
  destruct (Z.to_int n) as [u|u]; cbn [NilEmpty.string_of_int toLowerCase];
    by rewrite uint_string_lower.
Qed.

(** The error that the client raises for a refused status, other than
    404, leaves [downloadDoc] as a generic failure and the handler with
    500. *)
Lemma refused_status_answer (r : httpResponse) :
  status r <> 404%Z ->
  let m := "Request failed with status code "
             +:+ NilEmpty.string_of_int (Z.to_int (status r)) in
  errorReply (catchDownload {| message := m; response := Some r |})
  = fail 500 (failedDownload +:+ m).
Proof.
  intros H404 m. subst m.
  set (d := NilEmpty.string_of_int (Z.to_int (status r))).
  assert (Hd : forall c, lacks c "0123456789-" -> lacks c d)
    by (intros c Hc; by apply int_string_lacks).
  assert (Hcatch :
    catchDownload {| message := "Request failed with status code " +:+ d;
                     response := Some r |}
    = newError (failedDownload +:+ "Request failed with status code " +:+ d)).
  { unfold catchDownload. cbn [response message].
    apply Z.eqb_neq in H404. rewrite H404.
    rewrite toLowerCase_app. unfold d at 2. rewrite int_string_lower. fold d.
    rewrite includes_app_false;
      [by rewrite andb_false_r | by vm_compute | apply Hd].
    simpl. repeat split; discriminate. }
  rewrite Hcatch. unfold errorReply. cbn [message newError].
  rewrite isEmpty_app by done.
  rewrite <- !append_assoc.
  rewrite !includes_app_false; first done;
    try (by vm_compute); apply Hd; simpl; repeat split; discriminate.
Qed.

(** X11: for a request that passes the guards and a reply of the document
    host, with a working file system and converter, the reply alone
    decides the status: 404 for a reply with status 404; 200 for a reply
    with a status from 200 to 399 and the DOCX content type (the file being
    there to convert); 500 for every other reply.  No reply is answered
    with 403: one with status 401 or 403 is refused by the client before
    the code looks at its status, and the message for another content type
    holds none of the texts that the handler looks for. *)
Theorem reply_decides_status :
  forall (w : world) (req : request) (id dir html : string)
         (r : httpResponse),
    extractDocId (url req) = Ok id ->
    truthy (keywords req) = false \/ isArray (keywords req) = true ->
    mkdtempSync w = Ok dir ->
    httpGet w (buildExportUrl id) = Reply r ->
    writeFileSync w (docxPath dir id) = None ->
    mammoth w (docxPath dir id) = Ok html ->
    code (parseDoc w req) =
      (if (status r =? 404)%Z then 404
       else if validateStatus (status r) && isDocx r
               && existsSync w (docxPath dir id)
            then 200 else 500)%Z.
Proof.
  intros w req id dir html r Hid Hk Hdir Hget Hw Hm.
  assert (Hurl : negb (truthy (url req)) || negb (isString (url req)) = false).
  { apply extractDocId_Ok in Hid as (u & -> & Ht & _). simpl.
    destruct u; [done | done]. }
  assert (Hkw : truthy (keywords req) && negb (isArray (keywords req)) = false).
  { destruct Hk as [-> | ->]; [done | by rewrite andb_false_r]. }
  unfold parseDoc. rewrite Hurl, Hkw.
  unfold processGoogleDoc, downloadDoc. rewrite Hid, Hdir.
  fold (docxPath dir id). unfold tryDownload, axiosGet. rewrite Hget.
  destruct (validateStatus (status r)) eqn:Hv.
  - apply validateStatus_range in Hv as Hrange.
    replace (status r =? 404)%Z with false by lia.
    replace (status r =? 401)%Z with false by lia.
    replace (status r =? 403)%Z with false by lia.
    cbn [orb andb]. destruct (isDocx r).
    + cbn [negb andb]. rewrite Hw. unfold convertToHtml.
      rewrite docxPath_not_empty. destruct (existsSync w _); cbn [negb].
      * rewrite Hm, extract_guarded by done. done.
      * done.
    + done.
  - cbn [andb]. destruct (status r =? 404)%Z eqn:E404.
    + apply Z.eqb_eq in E404.
      unfold catchDownload. cbn [response]. rewrite E404. done.
    + apply Z.eqb_neq in E404.
      by rewrite (refused_status_answer r E404).
Qed.

Lemma reply_decides_status_witness :
  code (parseDoc (answering (Reply {| status := 403; contentType := None |}))
                 {| url := docUrl; keywords := JUndefined |}) = 500%Z
  /\ code (parseDoc publicDoc {| url := docUrl; keywords := JUndefined |})
     = 200%Z.
Proof.
  split.
  - apply (reply_decides_status
             (answering (Reply {| status := 403; contentType := None |}))
             {| url := docUrl; keywords := JUndefined |}
             "abc" "/tmp/gdoc-parser-a1" "<p>Total: 42</p>"
             {| status := 403; contentType := None |});
      (reflexivity || by left).
  - apply (reply_decides_status publicDoc
             {| url := docUrl; keywords := JUndefined |}
             "abc" "/tmp/gdoc-parser-a1" "<p>Total: 42</p>" docxReply);
      (reflexivity || by left).
Defined.

End Pipeline.
